(** * DeepCode design-system scaffold: design tokens, CSS-variable export,
      BaseButton, and the step-gate status machine.

    Shallow embedding of
      - [src/frontend/src/design-system/tokens.ts]   ([tokens], [cssVariables]),
      - [src/frontend/src/design-system/BaseButton.tsx] ([intentToColor],
        [BaseButton]),
      - [src/frontend/src/main.tsx] ([App]),
    with calls of [cssVariables] also modelled on a heap of objects,
    together with the gate-status machine of the specification. *)

From Stdlib Require Import ZArith Ascii String.
From stdpp Require Import gmap strings list fin_maps.

Local Open Scope Z_scope.

(** ** JavaScript values and failures *)

(** The values that flow through the token and style code: token values are
    strings, [parseInt] yields a number or [NaN], and a missing property reads
    as [undefined]. *)
Inductive JsVal : Type :=
  | VUndef
  | VStr (s : string)
  | VNum (n : Z)
  | VNaN.

Global Instance JsVal_eq_dec : EqDecision JsVal.
Proof. solve_decision. Defined.

(** Exceptions raised by the runtime.  The only one this code can raise is the
    [TypeError] of reading a property of [undefined]. *)
Inductive JsError : Type :=
  | TypeError.

Inductive Result (A : Type) : Type :=
  | Ok (a : A)
  | Throw (e : JsError).
Arguments Ok {A} a.
Arguments Throw {A} e.

Global Instance Result_ret : MRet Result := @Ok.
Global Instance Result_bind : MBind Result := fun A B f m =>
  match m with
  | Ok a => f a
  | Throw e => Throw e
  end.

(** ** Plain objects

    A plain object is represented by the list [Object.entries] returns for it:
    its own enumerable string-keyed properties in enumeration order. *)
Definition JsObject (A : Type) : Type := list (string * A).

(** [o[k]] for an own property; [None] stands for [undefined]. *)
Fixpoint getProp {A : Type} (o : JsObject A) (k : string) : option A :=
  match o with
  | [] => None
  | (k', a) :: o' => if decide (k' = k) then Some a else getProp o' k
  end.

(** The invariant of every object: no property name occurs twice. *)
Definition uniqueKeys {A : Type} (o : JsObject A) : Prop := NoDup (map fst o).

(** One assignment [m[k] = v] on an object used as a map. *)
Definition assign {V : Type} (m : gmap string V) (kv : string * V)
    : gmap string V :=
  <[kv.1 := kv.2]> m.

(** The imported [design_tokens.json]: group name -> (token name -> value). *)
Definition DesignTokens : Type := JsObject (JsObject string).

(** What reading a token yields: its string, or [None] for [undefined]. *)
Definition TokenRead : Type := option string.

Definition ofToken (t : TokenRead) : JsVal :=
  match t with
  | Some s => VStr s
  | None => VUndef
  end.

(** Template-literal interpolation [`${t}`] and the [ToString] that [parseInt]
    applies to its argument. *)
Definition toStr (t : TokenRead) : string :=
  match t with
  | Some s => s
  | None => "undefined"
  end.

(** ** tokens.ts *)

Module Tokens.

(** [`--dc-${groupName}-${tokenName}`] *)
Definition varName (groupName tokenName : string) : string :=
  "--dc-" +:+ groupName +:+ "-" +:+ tokenName.

Section WithDocument.

(** [import designTokens from '../../../../ui/design_tokens.json'] *)
Variable designTokens : DesignTokens.

(** [export const tokens: DesignTokens = designTokens;] *)
Definition tokens : DesignTokens := designTokens.

(** Evaluating the module is all the loading there is: the binding above, with
    no check of the document and no way to fail. *)
Definition load : Result DesignTokens := Ok tokens.

(** The typed accessor [tokens.<group>.<name>], for the groups and names of
    the document (all that its type admits): reading a property of a
    missing group raises [TypeError], a missing name reads [undefined].
    Members inherited from [Object.prototype] are not part of this reading:
    it is exact for own properties and for names that are not such
    members. *)
Definition member (group name : string) : Result TokenRead :=
  match getProp tokens group with
  | None => Throw TypeError
  | Some groupValues => Ok (getProp groupValues name)
  end.

(** The inner loop of [cssVariables]:
    [for (const [tokenName, tokenValue] of Object.entries(groupValues))
       vars[`--dc-${groupName}-${tokenName}`] = tokenValue]. *)
Definition exportGroup (vars : gmap string string) (groupName : string)
    (groupValues : JsObject string) : gmap string string :=
  foldl (fun vars '(tokenName, tokenValue) =>
           <[varName groupName tokenName := tokenValue]> vars)
        vars groupValues.

(** [export function cssVariables(): Record<string, string>] *)
Definition cssVariables : gmap string string :=
  foldl (fun vars '(groupName, groupValues) =>
           exportGroup vars groupName groupValues)
        ∅ tokens.

(** [useDesignTokens]: the state cell is initialised with [tokens] and the
    effect stores [tokens] again, so every render returns [tokens]. *)
Definition useDesignTokens : DesignTokens := tokens.

End WithDocument.

(** All tokens of a document as [(variable name, value)] pairs, in the order
    the two loops of [cssVariables] visit them. *)
Definition flatten (doc : DesignTokens) : list (string * string) :=
  flat_map (fun '(groupName, groupValues) =>
              map (fun '(tokenName, tokenValue) =>
                     (varName groupName tokenName, tokenValue))
                  groupValues)
           doc.

(** [(group, name)] is a token of the document with value [value]. *)
Definition hasToken (doc : DesignTokens) (group name value : string) : Prop :=
  ∃ groupValues, In (group, groupValues) doc ∧ In (name, value) groupValues.

(** Some group of the document has no token. *)
Definition hasEmptyGroup (doc : DesignTokens) : bool :=
  existsb (fun '(_, groupValues) =>
             match groupValues with [] => true | _ => false end) doc.

(** The string contains a hyphen. *)
Fixpoint hasHyphen (s : string) : bool :=
  match s with
  | EmptyString => false
  | String c s' => if decide (c = "-"%char) then true else hasHyphen s'
  end.

(** The document is a well-formed object of well-formed objects. *)
Definition wellFormed (doc : DesignTokens) : Prop :=
  uniqueKeys doc ∧ ∀ g grp, In (g, grp) doc → uniqueKeys grp.

(** No group name of the document contains a hyphen. *)
Definition hyphenFreeGroups (doc : DesignTokens) : Prop :=
  ∀ g grp, In (g, grp) doc → hasHyphen g = false.

End Tokens.

(** ** BaseButton.tsx *)

Module BaseButton.

(** The entries of [intentToColor]: [{ background: string; color: string }]. *)
Record Palette : Type := { background : TokenRead; color : TokenRead }.

(** The names every plain object inherits from [Object.prototype]. *)
Definition objectPrototypeKeys : list string :=
  [ "constructor"; "__defineGetter__"; "__defineSetter__"; "hasOwnProperty";
    "__lookupGetter__"; "__lookupSetter__"; "isPrototypeOf";
    "propertyIsEnumerable"; "toString"; "valueOf"; "__proto__";
    "toLocaleString" ].

(** What [o[k]] yields on an object literal: an own entry, a member inherited
    from [Object.prototype], or [undefined]. *)
Inductive Looked (A : Type) : Type :=
  | Own (a : A)
  | Inherited
  | Undefined.
Arguments Own {A} a.
Arguments Inherited {A}.
Arguments Undefined {A}.

Definition lookupKey {A : Type} (o : JsObject A) (k : string) : Looked A :=
  match getProp o k with
  | Some a => Own a
  | None => if decide (k ∈ objectPrototypeKeys) then Inherited else Undefined
  end.

(** [palette.background] / [palette.color]: a field of an own entry; an
    inherited member has no such property and reads [undefined]; reading a
    property of [undefined] raises [TypeError]. *)
Definition readField (field : Palette → TokenRead) (palette : Looked Palette)
    : Result JsVal :=
  match palette with
  | Own p => Ok (ofToken (field p))
  | Inherited => Ok VUndef
  | Undefined => Throw TypeError
  end.

(** [parseInt(s, 10)]: leading white space (here the ASCII white-space
    characters), an optional sign, then the longest run of decimal digits;
    [NaN] when there is no digit.  The runtime returns the nearest double
    ([Infinity] beyond its range) and [-0] for a negated zero, and also skips
    the white space outside ASCII; the integer here is the exact value. *)
Definition isWhiteSpace (c : ascii) : bool :=
  let n := Z.of_nat (nat_of_ascii c) in
  ((9 <=? n) && (n <=? 13)) || (n =? 32).

Fixpoint trimStart (s : string) : string :=
  match s with
  | String c s' => if isWhiteSpace c then trimStart s' else s
  | EmptyString => s
  end.

Definition digitOf (c : ascii) : option Z :=
  let n := Z.of_nat (nat_of_ascii c) in
  if (48 <=? n) && (n <=? 57) then Some (n - 48) else None.

Fixpoint readDigits (s : string) (acc : option Z) : option Z :=
  match s with
  | String c s' =>
      match digitOf c with
      | Some d => readDigits s' (Some (10 * default 0 acc + d))
      | None => acc
      end
  | EmptyString => acc
  end.

Definition parseInt (t : TokenRead) : JsVal :=
  let s := trimStart (toStr t) in
  let '(negative, body) :=
    match s with
    | String "-" r => (true, r)
    | String "+" r => (false, r)
    | _ => (false, s)
    end in
  match readDigits body None with
  | Some n => VNum (if negative then - n else n)
  | None => VNaN
  end.

(** An object literal: properties are defined in order, a later one replacing
    an earlier one of the same name. *)
Definition objectLiteral (props : list (string * JsVal)) : gmap string JsVal :=
  foldl assign ∅ props.

(** [{ ...o, ...src }]: every own property of [src] is copied over [o];
    spreading [undefined] copies nothing. *)
Definition spread (o : gmap string JsVal) (src : option (gmap string JsVal))
    : gmap string JsVal :=
  match src with
  | Some s => s ∪ o
  | None => o
  end.

(** [BaseButtonProps]: [intent?], [style?], [type?], and the remaining button
    attributes ([...rest]); [children] are passed through and play no part. *)
Record BaseButtonProps : Type := {
  intent : option string;
  style : option (gmap string JsVal);
  type : option string;
  rest : gmap string JsVal
}.

(** The rendered [<button>]: the attributes spread from [rest], its [type] and
    its [style] object. *)
Record Element : Type := {
  el_rest : gmap string JsVal;
  el_type : string;
  el_style : gmap string JsVal
}.

Section WithTokens.

(** [import { tokens } from './tokens'] *)
Variable tokens : DesignTokens.

(** [const intentToColor: Record<Intent, { background; color }>], built when
    the module is evaluated. *)
Definition intentToColor : Result (JsObject Palette) :=
  primary ← Tokens.member tokens "color" "primary";
  primary_text ← Tokens.member tokens "color" "primary_text";
  surface ← Tokens.member tokens "color" "surface";
  secondary_text ← Tokens.member tokens "color" "secondary_text";
  danger ← Tokens.member tokens "color" "danger";
  primary_text' ← Tokens.member tokens "color" "primary_text";
  mret [ ("primary", {| background := primary; color := primary_text |});
         ("secondary", {| background := surface; color := secondary_text |});
         ("danger", {| background := danger; color := primary_text' |}) ].

(** [intentToColor[intent]] *)
Definition paletteFor (intent : string) : Result (Looked Palette) :=
  table ← intentToColor;
  mret (lookupKey table intent).

(** The style object of the button, before the caller's [style] is spread. *)
Definition tokenStyle (palette : Looked Palette) : Result (gmap string JsVal) :=
  background ← readField background palette;
  color ← readField color palette;
  radius_md ← Tokens.member tokens "radius" "md";
  border ← Tokens.member tokens "color" "border";
  spacing_sm ← Tokens.member tokens "spacing" "sm";
  spacing_lg ← Tokens.member tokens "spacing" "lg";
  font_family ← Tokens.member tokens "typography" "font_family";
  font_size_md ← Tokens.member tokens "typography" "font_size_md";
  font_weight_semibold ← Tokens.member tokens "typography" "font_weight_semibold";
  soft ← Tokens.member tokens "shadow" "soft";
  mret (objectLiteral
    [ ("background", background);
      ("color", color);
      ("borderRadius", ofToken radius_md);
      ("border", VStr ("1px solid " +:+ toStr border));
      ("padding", VStr (toStr spacing_sm +:+ " " +:+ toStr spacing_lg));
      ("fontFamily", ofToken font_family);
      ("fontSize", ofToken font_size_md);
      ("fontWeight", parseInt font_weight_semibold);
      ("boxShadow", ofToken soft);
      ("cursor", VStr "pointer");
      ("transition", VStr "transform 0.2s ease, box-shadow 0.2s ease") ]).

(** [export const BaseButton: React.FC<BaseButtonProps>] *)
Definition BaseButton (props : BaseButtonProps) : Result Element :=
  let intent := default "primary" (intent props) in
  let buttonType := default "button" (type props) in
  palette ← paletteFor intent;
  base ← tokenStyle palette;
  mret {| el_rest := rest props;
          el_type := buttonType;
          el_style := spread base (style props) |}.

End WithTokens.

(** [onMouseEnter] / [onMouseLeave]: the handlers write the inline style of the
    DOM node, not the style object of the component. *)
Definition onMouseEnter (nodeStyle : gmap string JsVal) : gmap string JsVal :=
  <["transform" := VStr "translateY(-1px)"]> nodeStyle.

Definition onMouseLeave (nodeStyle : gmap string JsVal) : gmap string JsVal :=
  <["transform" := VStr "translateY(0)"]> nodeStyle.

(** The three values of [type Intent]. *)
Definition intents : list string := [ "primary"; "secondary"; "danger" ].

(** The palette table of the specification:
    intent, background token, foreground token (all in group [color]). *)
Definition paletteTable : list (string * (string * string)) :=
  [ ("primary", ("primary", "primary_text"));
    ("secondary", ("surface", "secondary_text"));
    ("danger", ("danger", "primary_text")) ].

(** The caller's [style] prop defines the property [k]. *)
Definition styleSets (props : BaseButtonProps) (k : string) : bool :=
  match style props with
  | Some s => bool_decide (is_Some (s !! k))
  | None => false
  end.

(** Props that carry an intent and nothing else. *)
Definition withIntent (i : option string) : BaseButtonProps :=
  {| intent := i; style := None; type := None; rest := ∅ |}.

End BaseButton.

(** ** The gate-status machine *)

Module Gate.

(** Modelled from the spec: the status of a step gate (data model,
    "GateStatus"); the orchestrator code that owns the gates is not part of
    the sources at hand. *)
Inductive GateStatus : Type :=
  | dirty
  | clean.

(** Modelled from the spec: the approval decision (data model,
    "ApprovalDecision"), which exists only while the gate is clean. *)
Inductive ApprovalDecision : Type :=
  | pending
  | approved
  | rejected.

(** Modelled from the spec: the aggregate [{stepId, status, decision}]; the
    decision [None] is the "none" of [dirty[none]]. *)
Record StepGate : Type := {
  stepId : string;
  status : GateStatus;
  decision : option ApprovalDecision
}.

(** Modelled from the spec: the events of the gate-event interface. *)
Inductive GateEvent : Type :=
  | workCompleted
  | userApproves
  | userRejects
  | workInvalidated.

(** Modelled from the spec: the failure of an illegal transition. *)
Inductive GateError : Type :=
  | InvalidGateTransition.

Global Instance GateStatus_eq_dec : EqDecision GateStatus.
Proof. solve_decision. Defined.

Global Instance ApprovalDecision_eq_dec : EqDecision ApprovalDecision.
Proof. solve_decision. Defined.

(** Modelled from the spec: "every new StepGate starts dirty[none]". *)
Definition newGate (id : string) : StepGate :=
  {| stepId := id; status := dirty; decision := None |}.

(** Modelled from the spec: the terminal state [clean[approved]]. *)
Definition terminal (g : StepGate) : bool :=
  bool_decide (status g = clean ∧ decision g = Some approved).

(** Modelled from the spec: the transition table of section 4.4.
      dirty          --workCompleted-->   clean[pending]
      clean[pending] --userApproves-->    clean[approved]   (terminal)
      clean[pending] --userRejects-->     dirty[none]
      clean          --workInvalidated--> dirty[none]
    The terminal state has no transition; every other pair is illegal. *)
Definition next (g : StepGate) (ev : GateEvent) : option StepGate :=
  if terminal g then None else
  match status g, decision g, ev with
  | dirty, _, workCompleted =>
      Some {| stepId := stepId g; status := clean; decision := Some pending |}
  | clean, Some pending, userApproves =>
      Some {| stepId := stepId g; status := clean; decision := Some approved |}
  | clean, Some pending, userRejects =>
      Some {| stepId := stepId g; status := dirty; decision := None |}
  | clean, _, workInvalidated =>
      Some {| stepId := stepId g; status := dirty; decision := None |}
  | _, _, _ => None
  end.

(** Modelled from the spec: [GateStatusMachine.transition], the single writer
    of a gate.  A legal event replaces the gate; an illegal one reports
    [InvalidGateTransition] and leaves the gate as it was. *)
Definition transition (ev : GateEvent) (g : StepGate)
    : StepGate * option GateError :=
  match next g ev with
  | Some g' => (g', None)
  | None => (g, Some InvalidGateTransition)
  end.

(** Modelled from the spec: an ordered stream of events applied to one gate,
    with the failures met on the way. *)
Fixpoint run (evs : list GateEvent) (g : StepGate)
    : StepGate * list GateError :=
  match evs with
  | [] => (g, [])
  | ev :: evs' =>
      let '(g', err) := transition ev g in
      let '(g'', errs) := run evs' g' in
      (g'', match err with Some e => e :: errs | None => errs end)
  end.

End Gate.

(** ** Test documents *)

(** A document of the shape the code reads (groups [color], [spacing],
    [typography], [radius], [shadow]); [color.primary] and
    [color.primary_text] are the values the specification tests with. *)
Definition sampleColor : JsObject string :=
  [ ("primary", "#2563EB"); ("primary_text", "#FFFFFF");
    ("secondary", "#64748B"); ("secondary_text", "#0F172A");
    ("surface", "#F8FAFC"); ("background", "#FFFFFF");
    ("danger", "#DC2626"); ("border", "#E2E8F0") ].

Definition sampleSpacing : JsObject string :=
  [ ("sm", "8px"); ("md", "12px"); ("lg", "16px") ].

Definition sampleTypography : JsObject string :=
  [ ("font_family", "Inter, sans-serif"); ("font_size_md", "16px");
    ("font_weight_semibold", "600") ].

Definition sampleRadius : JsObject string :=
  [ ("md", "8px"); ("lg", "12px") ].

Definition sampleShadow : JsObject string :=
  [ ("soft", "0 1px 2px rgba(0,0,0,0.1)") ].

Definition sampleTokens : DesignTokens :=
  [ ("color", sampleColor); ("spacing", sampleSpacing);
    ("typography", sampleTypography); ("radius", sampleRadius);
    ("shadow", sampleShadow) ].

(** Two tokens whose variable names coincide: group [color] with name
    [text-muted], and group [color-text] with name [muted]. *)
Definition clashingTokens : DesignTokens :=
  [ ("color", [ ("text-muted", "#666666") ]);
    ("color-text", [ ("muted", "#999999") ]) ].

(** A document with a group that holds no token. *)
Definition emptyGroupTokens : DesignTokens :=
  [ ("color", [ ("primary", "#2563EB") ]); ("shadow", []) ].

(** ** The rendered button and main.tsx *)

Module View.
Import BaseButton.

(** The property names of the style literal of [BaseButton], in source
    order. *)
Definition baseStyleKeys : list string :=
  [ "background"; "color"; "borderRadius"; "border"; "padding"; "fontFamily";
    "fontSize"; "fontWeight"; "boxShadow"; "cursor"; "transition" ].

(** The groups of the document the frontend reads. *)
Definition requiredGroups : list string :=
  [ "color"; "radius"; "spacing"; "typography"; "shadow" ].

Definition groupsPresent (tokens : DesignTokens) : Prop :=
  ∀ g, In g requiredGroups → is_Some (getProp tokens g).

(** The two closures [BaseButton] installs on the button. *)
Inductive Handler : Type :=
  | MouseEnter
  | MouseLeave.

(** What a handler does to the inline style of the node it fires on. *)
Definition fire (h : Handler) (nodeStyle : gmap string JsVal)
    : gmap string JsVal :=
  match h with
  | MouseEnter => onMouseEnter nodeStyle
  | MouseLeave => onMouseLeave nodeStyle
  end.

(** An attribute of the rendered [<button>]: a plain value, the style object,
    or one of the component's handlers. *)
Inductive Attr : Type :=
  | Plain (v : JsVal)
  | Style (s : gmap string JsVal)
  | Listener (h : Handler).

(** The attributes of
    [<button {...rest} type={buttonType} style={...}
             onMouseEnter={...} onMouseLeave={...}>]:
    [rest] is spread first, the four named attributes are set after it. *)
Definition buttonAttrs (el : Element) : gmap string Attr :=
  <["onMouseLeave" := Listener MouseLeave]>
    (<["onMouseEnter" := Listener MouseEnter]>
       (<["style" := Style (el_style el)]>
          (<["type" := Plain (VStr (el_type el))]>
             (Plain <$> el_rest el)))).

(** The tree a component renders: text, a host element with its style and
    children, or a rendered [BaseButton] with its children. *)
#[warnings="-register-all"]
Inductive Node : Type :=
  | Text (s : string)
  | Tag (name : string) (style : gmap string JsVal) (children : list Node)
  | Button (el : Element) (children : list Node).

(** The rendered buttons of a tree, in document order. *)
Fixpoint buttons (n : Node) : list Element :=
  match n with
  | Text _ => []
  | Tag _ _ children => flat_map buttons children
  | Button el _ => [el]
  end.

Section WithTokens.

(** [design_tokens.json], seen by [App] through [useDesignTokens()] and by
    [BaseButton] through the import of [tokens]. *)
Variable designTokens : DesignTokens.

(** [const App: React.FC], rendered down to its two buttons. *)
Definition App : Result Node :=
  let tokens := Tokens.useDesignTokens designTokens in
  font_family ← Tokens.member tokens "typography" "font_family";
  background ← Tokens.member tokens "color" "background";
  padding ← Tokens.member tokens "spacing" "lg";
  surface ← Tokens.member tokens "color" "surface";
  radius_lg ← Tokens.member tokens "radius" "lg";
  header_padding ← Tokens.member tokens "spacing" "lg";
  soft ← Tokens.member tokens "shadow" "soft";
  border ← Tokens.member tokens "color" "border";
  secondary_text ← Tokens.member tokens "color" "secondary_text";
  secondary ← Tokens.member tokens "color" "secondary";
  gap ← Tokens.member tokens "spacing" "sm";
  approve ← BaseButton designTokens (withIntent (Some "primary"));
  decline ← BaseButton designTokens (withIntent (Some "secondary"));
  mret
    (Tag "div"
       (objectLiteral [ ("fontFamily", ofToken font_family);
                        ("background", ofToken background);
                        ("minHeight", VStr "100vh");
                        ("padding", ofToken padding) ])
       [ Tag "header"
           (objectLiteral
              [ ("background", ofToken surface);
                ("borderRadius", ofToken radius_lg);
                ("padding", ofToken header_padding);
                ("boxShadow", ofToken soft);
                ("border", VStr ("1px solid " +:+ toStr border)) ])
           [ Tag "h1"
               (objectLiteral [ ("margin", VNum 0);
                                ("color", ofToken secondary_text) ])
               [ Text "DeepCode Orchestrator" ];
             Tag "p"
               (objectLiteral [ ("color", ofToken secondary) ])
               [ Text "Async chat-only workflow controller." ];
             Tag "div"
               (objectLiteral [ ("display", VStr "flex");
                                ("gap", ofToken gap) ])
               [ Button approve [ Text "Approve" ];
                 Button decline [ Text "Decline" ] ] ] ]).

End WithTokens.

End View.

(** ** Calls of [cssVariables] on the object heap

    The token document and the objects [cssVariables] returns live in one
    heap.  A call allocates its result, reads the document through
    [Object.entries] and writes the result by assignment. *)

Module Runtime.

Definition Loc : Type := positive.

(** An object of the heap: the document, whose properties refer to its group
    objects, or an object with string properties (a group, or a variable set).
    These are the shapes [typeof designTokens] and [Record<string, string>]
    admit. *)
Inductive Cell : Type :=
  | GroupsObject (entries : JsObject Loc)
  | ValuesObject (entries : JsObject string).

Abbreviation Heap := (gmap Loc Cell).

(** A computation on the heap that returns a value or throws. *)
Definition Run (A : Type) : Type := Heap → Result (A * Heap).

Global Instance Run_ret : MRet Run := fun A a h => Ok (a, h).
Global Instance Run_bind : MBind Run := fun A B f m h =>
  match m h with
  | Ok (a, h') => f a h'
  | Throw e => Throw e
  end.

(** [{}]: a new object, at a location not in use. *)
Definition newObject : Run Loc := fun h =>
  let l := fresh (dom h) in Ok (l, <[l := ValuesObject []]> h).

(** [Object.entries(o)] of the document: the array is a copy, the heap is
    left alone.  [Object.entries(undefined)] throws; an object of the other
    shape does not occur where the document type puts a document, and the
    computation stops there as well. *)
Definition groupEntries (o : Loc) : Run (JsObject Loc) := fun h =>
  match h !! o with
  | Some (GroupsObject entries) => Ok (entries, h)
  | _ => Throw TypeError
  end.

(** [Object.entries(o)] of a group, under the same convention. *)
Definition valueEntries (o : Loc) : Run (JsObject string) := fun h =>
  match h !! o with
  | Some (ValuesObject entries) => Ok (entries, h)
  | _ => Throw TypeError
  end.

(** [o[k] = v] on the properties of an object: an existing property keeps its
    place and takes the new value, a new one is added at the end. *)
Fixpoint setEntry (entries : JsObject string) (k v : string)
    : JsObject string :=
  match entries with
  | [] => [(k, v)]
  | (k', v') :: entries' =>
      if decide (k' = k) then (k, v) :: entries'
      else (k', v') :: setEntry entries' k v
  end.

(** [o[k] = v] *)
Definition assignProp (o : Loc) (k v : string) : Run unit := fun h =>
  match h !! o with
  | Some (ValuesObject entries) =>
      Ok ((), <[o := ValuesObject (setEntry entries k v)]> h)
  | _ => Throw TypeError
  end.

(** [for (const x of xs) body] *)
Fixpoint forOf {A : Type} (xs : list A) (body : A → Run unit) : Run unit :=
  match xs with
  | [] => mret ()
  | x :: xs' => body x ≫= fun _ => forOf xs' body
  end.

(** [export function cssVariables(): Record<string, string>], with the module
    binding [tokens] at location [tokens]. *)
Definition cssVariables (tokens : Loc) : Run Loc :=
  vars ← newObject;
  groups ← groupEntries tokens;
  _ ← forOf groups (fun '(groupName, groupValues) =>
         values ← valueEntries groupValues;
         forOf values (fun '(tokenName, tokenValue) =>
           assignProp vars (Tokens.varName groupName tokenName) tokenValue));
  mret vars.

(** The groups a list of references stands for in a heap. *)
Fixpoint readGroups (h : Heap) (groups : JsObject Loc)
    : option DesignTokens :=
  match groups with
  | [] => Some []
  | (g, l) :: groups' =>
      match h !! l, readGroups h groups' with
      | Some (ValuesObject entries), Some doc => Some ((g, entries) :: doc)
      | _, _ => None
      end
  end.

(** The token document a heap holds at a location. *)
Definition readDocument (h : Heap) (tokens : Loc) : option DesignTokens :=
  match h !! tokens with
  | Some (GroupsObject groups) => readGroups h groups
  | _ => None
  end.

(** The variable set an object of the heap holds. *)
Definition readVariables (h : Heap) (vars : Loc)
    : option (gmap string string) :=
  match h !! vars with
  | Some (ValuesObject entries) => Some (list_to_map entries)
  | _ => None
  end.

(** A heap with one document: [{ color: { primary: "#2563EB" } }] at
    location 1, its group at location 2. *)
Definition sampleHeap : Heap :=
  {[ 1%positive := GroupsObject [ ("color", 2%positive) ];
     2%positive := ValuesObject [ ("primary", "#2563EB") ] ]}.

End Runtime.

(** * Properties *)

(** ** Objects built by successive assignment *)

Section FoldInsert.

Context {V : Type}.

(** A key read after a run of assignments holds a value assigned in the run,
    or the value it had before. *)
Lemma foldl_assign_inv (l : list (string * V)) (m : gmap string V) k v :
  foldl assign m l !! k = Some v → In (k, v) l ∨ m !! k = Some v.
Proof.
  revert m. induction l as [|[k' v'] l IH]; intros m H; simpl in *.
  - by right.
  - apply IH in H as [H|H]; [by left; right|].
    unfold assign in H; simpl in H.
    destruct (decide (k' = k)) as [->|Hne].
    + rewrite lookup_insert_eq in H. left; left. congruence.
    + rewrite lookup_insert_ne in H by done. by right.
Qed.

(** When every assignment to [k] in the run writes [v], and [k] is assigned
    in the run or already holds [v], it holds [v] afterwards. *)
Lemma foldl_assign_agree (l : list (string * V)) (m : gmap string V) k v :
  (∀ v', In (k, v') l → v' = v) →
  m !! k = Some v ∨ In (k, v) l →
  foldl assign m l !! k = Some v.
Proof.
  revert m. induction l as [|[k' v'] l IH]; intros m Hall H; simpl in *.
  - by destruct H.
  - apply IH; [intros v'' Hin; apply Hall; by right|].
    unfold assign; simpl.
    destruct (decide (k' = k)) as [->|Hne].
    + left. rewrite lookup_insert_eq. f_equal. apply Hall. by left.
    + rewrite lookup_insert_ne by done.
      destruct H as [H|[H|H]]; [by left|congruence|by right].
Qed.

(** The last assignment to a key wins. *)
Lemma foldl_assign_last (l1 l2 : list (string * V)) (m : gmap string V) k v :
  (∀ v', ¬ In (k, v') l2) →
  foldl assign m (l1 ++ (k, v) :: l2) !! k = Some v.
Proof.
  intros Hnot. rewrite foldl_app. simpl.
  apply foldl_assign_agree; [intros v' Hin; by destruct (Hnot v')|].
  left. unfold assign; simpl. apply lookup_insert_eq.
Qed.

End FoldInsert.

(** ** tokens.ts *)

Module TokensFacts.
Import Tokens.

Lemma exportGroup_assign vars g grp :
  exportGroup vars g grp
  = foldl assign vars (map (fun '(n, v) => (varName g n, v)) grp).
Proof.
  unfold exportGroup. revert vars.
  induction grp as [|[n v] grp IH]; intros vars; simpl; [done|].
  by rewrite IH.
Qed.

(** The two nested loops are one run of assignments over [flatten]. *)
Lemma cssVariables_from (doc : DesignTokens) (vars : gmap string string) :
  foldl (fun vars '(g, grp) => exportGroup vars g grp) vars doc
  = foldl assign vars (flatten doc).
Proof.
  revert vars. induction doc as [|[g grp] doc IH]; intros vars; simpl; [done|].
  rewrite foldl_app, IH. by rewrite exportGroup_assign.
Qed.

Lemma cssVariables_flatten (doc : DesignTokens) :
  cssVariables doc = foldl assign ∅ (flatten doc).
Proof. unfold cssVariables, tokens. apply cssVariables_from. Qed.

Lemma in_flatten (doc : DesignTokens) k v :
  In (k, v) (flatten doc) ↔ ∃ g n, hasToken doc g n v ∧ k = varName g n.
Proof.
  unfold flatten, hasToken. rewrite in_flat_map. split.
  - intros [[g grp] [Hg Hin]]. apply in_map_iff in Hin as [[n v'] [Heq Hn]].
    injection Heq as <- <-. exists g, n. split; [by exists grp|done].
  - intros (g & n & (grp & Hg & Hn) & ->). exists (g, grp). split; [done|].
    apply in_map_iff. by exists (n, v).
Qed.

(** A successful typed read names a token of the document. *)
Lemma getProp_In {A : Type} (o : JsObject A) k a :
  getProp o k = Some a → In (k, a) o.
Proof.
  induction o as [|[k' a'] o IH]; simpl; [done|].
  case_decide as Hk; [intros [= <-]; subst; by left|].
  intros H; right; by apply IH.
Qed.

Lemma member_hasToken (doc : DesignTokens) g n v :
  member doc g n = Ok (Some v) → hasToken doc g n v.
Proof.
  unfold member, tokens. destruct (getProp doc g) as [grp|] eqn:Hg; [|done].
  intros [= Hn]. exists grp. split; by apply getProp_In.
Qed.

(** The export at a token's variable name, when all tokens with that name
    carry the same value. *)
Lemma cssVariables_lookup (doc : DesignTokens) g n v :
  hasToken doc g n v →
  (∀ g' n' v', hasToken doc g' n' v' → varName g' n' = varName g n → v' = v) →
  cssVariables doc !! varName g n = Some v.
Proof.
  intros Htok Hsame. rewrite cssVariables_flatten.
  apply foldl_assign_agree.
  - intros v' Hin. apply in_flatten in Hin as (g' & n' & Htok' & Heq).
    by apply (Hsame g' n' v').
  - right. apply in_flatten. by exists g, n.
Qed.

(** Every entry of the export comes from a token. *)
Lemma cssVariables_inv (doc : DesignTokens) k v :
  cssVariables doc !! k = Some v →
  ∃ g n, hasToken doc g n v ∧ k = varName g n.
Proof.
  rewrite cssVariables_flatten. intros H.
  apply foldl_assign_inv in H as [H|H]; [by apply in_flatten|].
  by rewrite lookup_empty in H.
Qed.

End TokensFacts.

(** ** Variable names *)

Module VarNames.
Import Tokens.

Lemma uniqueKeys_value {A : Type} (o : JsObject A) k a a' :
  uniqueKeys o → In (k, a) o → In (k, a') o → a = a'.
Proof.
  unfold uniqueKeys. induction o as [|[k0 a0] o IH]; simpl; [done|].
  intros Hnd [H1|H1] [H2|H2]; inversion Hnd as [|? ? Hnotin Hnd']; subst.
  - congruence.
  - injection H1 as -> ->. destruct Hnotin.
    apply list_elem_of_In, in_map_iff. by exists (k, a').
  - injection H2 as -> ->. destruct Hnotin.
    apply list_elem_of_In, in_map_iff. by exists (k, a).
  - by apply IH.
Qed.

(** A hyphen-free group name is recovered from the text before the first
    hyphen, so the variable name determines group and token name. *)
Lemma append_hyphen_inj (g g' n n' : string) :
  hasHyphen g = false → hasHyphen g' = false →
  g +:+ String "-" n = g' +:+ String "-" n' → g = g' ∧ n = n'.
Proof.
  revert g'. induction g as [|c g IH]; intros [|c' g'];
    change (String ?a ?s +:+ ?t) with (String a (s +:+ t));
    change ("" +:+ ?t) with t; simpl.
  - intros _ _ [= ->]. done.
  - intros _ H [= <- _]. by rewrite decide_True in H.
  - intros H _ [= -> _]. by rewrite decide_True in H.
  - intros H H' [= -> Heq].
    destruct (decide (c' = "-"%char)); [done|].
    destruct (IH g' H H' Heq) as [-> ->]. done.
Qed.

Lemma varName_inj (g g' n n' : string) :
  hasHyphen g = false → hasHyphen g' = false →
  varName g n = varName g' n' → g = g' ∧ n = n'.
Proof.
  unfold varName.
  change ("--dc-" +:+ ?t) with
    (String "-" (String "-" (String "d" (String "c" (String "-" t))))).
  change ("-" +:+ ?t) with (String "-" t).
  intros Hg Hg' [= Heq]. by apply append_hyphen_inj.
Qed.

(** In a well-formed document with hyphen-free group names, tokens with the
    same variable name are the same token. *)
Lemma hyphenFree_same_value (doc : DesignTokens) g n v g' n' v' :
  wellFormed doc → hyphenFreeGroups doc →
  hasToken doc g n v → hasToken doc g' n' v' →
  varName g' n' = varName g n → v' = v.
Proof.
  intros [Hdoc Hgrp] Hfree (grp & Hg & Hn) (grp' & Hg' & Hn') Heq.
  apply varName_inj in Heq as [-> ->]; [|by eapply Hfree..].
  assert (grp' = grp) as -> by (by eapply uniqueKeys_value).
  eapply uniqueKeys_value; [by eapply Hgrp|done..].
Qed.

End VarNames.

(** ** Claims about the token store and its export *)

Module TokenClaims.
Import Tokens TokensFacts VarNames.

(** The export of a document restricted to hyphen-free group names: for a
    well-formed document every token is exported under its own name. *)
Lemma cssVariables_hyphen_free (doc : DesignTokens) g n v :
  wellFormed doc → hyphenFreeGroups doc →
  hasToken doc g n v → cssVariables doc !! varName g n = Some v.
Proof.
  intros Hwf Hfree Htok. apply cssVariables_lookup; [done|].
  intros g' n' v' Htok' Heq. by eapply hyphenFree_same_value.
Qed.

(** An empty group adds nothing to the export. *)
Lemma cssVariables_empty_group (before after : DesignTokens) g :
  cssVariables (before ++ (g, []) :: after) = cssVariables (before ++ after).
Proof.
  rewrite !cssVariables_flatten. unfold flatten.
  by rewrite !flat_map_app.
Qed.

(** C1 (as amended).  For every token [(g, n)] of the document with value [v]
    such that every token of the document with the same variable name carries
    the same value, the export maps [--dc-g-n] to exactly [v]; and every key
    of the export is [--dc-g-n] for a token [(g, n)] of the document, mapped
    to that token's value. *)
Theorem cssVariables_exact (doc : DesignTokens) :
  (∀ g n v,
     hasToken doc g n v →
     (∀ g' n' v',
        hasToken doc g' n' v' → varName g' n' = varName g n → v' = v) →
     cssVariables doc !! varName g n = Some v)
  ∧ (∀ k v,
       cssVariables doc !! k = Some v →
       ∃ g n, hasToken doc g n v ∧ k = varName g n).
Proof.
  split.
  - intros g n v. apply cssVariables_lookup.
  - apply cssVariables_inv.
Qed.

Lemma cssVariables_exact_witness :
  cssVariables sampleTokens !! varName "color" "primary" = Some "#2563EB".
Proof.
  apply (proj1 (cssVariables_exact sampleTokens)).
  - exists sampleColor. split; simpl; tauto.
  - intros g' n' v' (grp & Hg & Hn) Heq. simpl in Hg.
    repeat destruct Hg as [Hg|Hg]; try done;
      injection Hg as <- <-; simpl in Hn;
      repeat destruct Hn as [Hn|Hn]; try done;
      injection Hn as <- <-; vm_compute in Heq; congruence.
Defined.

(** The clashing document is a well-formed object, without empty group. *)
Example clashingTokens_wellFormed :
  wellFormed clashingTokens ∧ hasEmptyGroup clashingTokens = false.
Proof.
  split; [|reflexivity]. split.
  - unfold uniqueKeys. simpl. compute_done.
  - intros g grp Hin. simpl in Hin.
    destruct Hin as [[= <- <-]|[[= <- <-]|[]]];
      unfold uniqueKeys; simpl; compute_done.
Qed.

(** C1 as stated fails: the token [(color, text-muted)] has value [#666666],
    but the export holds [#999999] under [--dc-color-text-muted], written
    later by the token [(color-text, muted)]. *)
Lemma cssVariables_clash :
  hasToken clashingTokens "color" "text-muted" "#666666"
  ∧ cssVariables clashingTokens !! varName "color" "text-muted"
    = Some "#999999".
Proof.
  split.
  - exists [ ("text-muted", "#666666") ]. split; simpl; tauto.
  - vm_compute. reflexivity.
Qed.

(** C5 (as amended).  Loading never fails and checks nothing: the store is
    the imported document itself, whatever it contains; a group without
    tokens is accepted and adds no variable to the export. *)
Theorem load_never_fails (doc : DesignTokens) :
  load doc = Ok doc
  ∧ (∀ e, load doc ≠ Throw e)
  ∧ (∀ before after g,
       doc = before ++ (g, []) :: after →
       cssVariables doc = cssVariables (before ++ after)).
Proof.
  split; [done|]. split; [done|].
  intros before after g ->. apply cssVariables_empty_group.
Qed.

Lemma load_never_fails_witness :
  cssVariables emptyGroupTokens
  = cssVariables ([ ("color", [ ("primary", "#2563EB") ]) ] ++ []).
Proof.
  apply (proj2 (proj2 (load_never_fails emptyGroupTokens))
           [ ("color", [ ("primary", "#2563EB") ]) ] [] "shadow").
  reflexivity.
Defined.

(** C5 as stated fails: a document with an empty group is loaded. *)
Lemma load_accepts_empty_group :
  hasEmptyGroup emptyGroupTokens = true
  ∧ load emptyGroupTokens = Ok emptyGroupTokens.
Proof. split; reflexivity. Qed.

(** C7 (as amended).  For every group [g] and name [n] the typed accessor
    reads as the string [v], provided every token of the document with the
    same variable name carries the same value, the export holds [v] under
    [--dc-g-n]. *)
Theorem accessor_agrees_with_export (doc : DesignTokens) g n v :
  member doc g n = Ok (Some v) →
  (∀ g' n' v',
     hasToken doc g' n' v' → varName g' n' = varName g n → v' = v) →
  cssVariables doc !! varName g n = Some v.
Proof.
  intros Hread Hsame. apply cssVariables_lookup; [|done].
  by apply member_hasToken.
Qed.

Lemma accessor_agrees_with_export_witness :
  cssVariables emptyGroupTokens !! varName "color" "primary" = Some "#2563EB".
Proof.
  apply (accessor_agrees_with_export emptyGroupTokens "color" "primary").
  - reflexivity.
  - intros g' n' v' (grp & Hg & Hn) Heq. simpl in Hg.
    repeat destruct Hg as [Hg|Hg]; try done;
      injection Hg as <- <-; simpl in Hn;
      repeat destruct Hn as [Hn|Hn]; try done.
    by injection Hn as <- <-.
Defined.

(** C7 as stated fails: the accessor reads [#666666] for
    [tokens["color"]["text-muted"]] while the export holds [#999999] under
    [--dc-color-text-muted]. *)
Lemma accessor_disagrees_on_clash :
  member clashingTokens "color" "text-muted" = Ok (Some "#666666")
  ∧ cssVariables clashingTokens !! varName "color" "text-muted"
    = Some "#999999".
Proof. split; vm_compute; reflexivity. Qed.

End TokenClaims.

(** ** BaseButton.tsx *)

Module ButtonFacts.
Import BaseButton.

Lemma member_group (tokens : DesignTokens) g grp n :
  getProp tokens g = Some grp → Tokens.member tokens g n = Ok (getProp grp n).
Proof. unfold Tokens.member, Tokens.tokens. by intros ->. Qed.

Lemma member_no_group (tokens : DesignTokens) g n :
  getProp tokens g = None → Tokens.member tokens g n = Throw TypeError.
Proof. unfold Tokens.member, Tokens.tokens. by intros ->. Qed.

(** With a [color] group the table is built, from that group. *)
Lemma intentToColor_ok (tokens : DesignTokens) colorG :
  getProp tokens "color" = Some colorG →
  intentToColor tokens
  = Ok [ ("primary", {| background := getProp colorG "primary";
                        color := getProp colorG "primary_text" |});
         ("secondary", {| background := getProp colorG "surface";
                          color := getProp colorG "secondary_text" |});
         ("danger", {| background := getProp colorG "danger";
                       color := getProp colorG "primary_text" |}) ].
Proof.
  intros Hc. unfold intentToColor.
  by rewrite !(member_group _ _ _ _ Hc).
Qed.

(** Without it, evaluating the module already raises. *)
Lemma intentToColor_throw (tokens : DesignTokens) :
  getProp tokens "color" = None → intentToColor tokens = Throw TypeError.
Proof.
  intros Hc. unfold intentToColor.
  by rewrite (member_no_group _ _ "primary" Hc).
Qed.

(** The own keys of the table are the three intents. *)
Lemma intentToColor_keys (tokens : DesignTokens) table :
  intentToColor tokens = Ok table → map fst table = intents.
Proof.
  destruct (getProp tokens "color") as [colorG|] eqn:Hc.
  - rewrite (intentToColor_ok _ _ Hc). by intros [= <-].
  - by rewrite (intentToColor_throw _ Hc).
Qed.

Lemma getProp_None {A : Type} (o : JsObject A) k :
  ¬ In k (map fst o) → getProp o k = None.
Proof.
  induction o as [|[k' a] o IH]; simpl; [done|].
  intros Hnot. case_decide; [by destruct Hnot; left|].
  apply IH. intros Hin. apply Hnot. by right.
Qed.

(** A row of the table, read through the typed accessor. *)
Lemma paletteFor_row (tokens : DesignTokens) i bgName fgName bg fg :
  In (i, (bgName, fgName)) paletteTable →
  Tokens.member tokens "color" bgName = Ok bg →
  Tokens.member tokens "color" fgName = Ok fg →
  paletteFor tokens i = Ok (Own {| background := bg; color := fg |}).
Proof.
  intros Hrow Hbg Hfg. unfold paletteFor.
  destruct (getProp tokens "color") as [colorG|] eqn:Hc;
    [|by rewrite (member_no_group _ _ _ Hc) in Hbg].
  rewrite (member_group _ _ _ bgName Hc) in Hbg.
  rewrite (member_group _ _ _ fgName Hc) in Hfg.
  injection Hbg as <-. injection Hfg as <-.
  rewrite (intentToColor_ok _ _ Hc). simpl in Hrow.
  destruct Hrow as [[= <- <- <-]|[[= <- <- <-]|[[= <- <- <-]|[]]]];
    reflexivity.
Qed.

(** An intent outside the enumeration never selects an entry of the table. *)
Lemma paletteFor_not_own (tokens : DesignTokens) s looked :
  ¬ In s intents → paletteFor tokens s = Ok looked →
  looked = if decide (s ∈ objectPrototypeKeys) then Inherited else Undefined.
Proof.
  intros Hnot. unfold paletteFor.
  destruct (intentToColor tokens) as [table|e] eqn:Htab; [|done].
  simpl. intros [= <-]. unfold lookupKey.
  rewrite getProp_None; [done|].
  by rewrite (intentToColor_keys _ _ Htab).
Qed.

(** The style literal for an entry of the table. *)
Lemma tokenStyle_own (tokens : DesignTokens) p
    colorG radiusG spacingG typographyG shadowG :
  getProp tokens "color" = Some colorG →
  getProp tokens "radius" = Some radiusG →
  getProp tokens "spacing" = Some spacingG →
  getProp tokens "typography" = Some typographyG →
  getProp tokens "shadow" = Some shadowG →
  tokenStyle tokens (Own p)
  = Ok (objectLiteral
      [ ("background", ofToken (background p));
        ("color", ofToken (color p));
        ("borderRadius", ofToken (getProp radiusG "md"));
        ("border", VStr ("1px solid " +:+ toStr (getProp colorG "border")));
        ("padding", VStr (toStr (getProp spacingG "sm") +:+ " "
                          +:+ toStr (getProp spacingG "lg")));
        ("fontFamily", ofToken (getProp typographyG "font_family"));
        ("fontSize", ofToken (getProp typographyG "font_size_md"));
        ("fontWeight", parseInt (getProp typographyG "font_weight_semibold"));
        ("boxShadow", ofToken (getProp shadowG "soft"));
        ("cursor", VStr "pointer");
        ("transition", VStr "transform 0.2s ease, box-shadow 0.2s ease") ]).
Proof.
  intros Hc Hr Hs Ht Hsh. unfold tokenStyle.
  rewrite (member_group _ _ _ _ Hc), (member_group _ _ _ _ Hr),
    !(member_group _ _ _ _ Hs), !(member_group _ _ _ _ Ht),
    (member_group _ _ _ _ Hsh).
  reflexivity.
Qed.

(** A property the caller's style does not define keeps its value. *)
Lemma spread_lookup (base : gmap string JsVal) props k :
  styleSets props k = false →
  spread base (style props) !! k = base !! k.
Proof.
  unfold styleSets, spread. destruct (style props) as [s|]; [|done].
  intros Hk. apply bool_decide_eq_false in Hk.
  apply lookup_union_r. by apply eq_None_not_Some.
Qed.

(** A property the caller's style defines takes the caller's value. *)
Lemma spread_override (base s : gmap string JsVal) k v :
  s !! k = Some v → spread base (Some s) !! k = Some v.
Proof. intros Hk. unfold spread. by apply lookup_union_Some_l. Qed.

End ButtonFacts.

(** ** Claims about BaseButton *)

Module ButtonClaims.
Import BaseButton ButtonFacts.

(** Reading one property of a style literal with distinct names. *)
Ltac literal_lookup :=
  unfold objectLiteral; simpl; unfold assign; simpl;
  repeat (rewrite lookup_insert_ne by done);
  apply lookup_insert_eq.

(** Rendering with an intent of the enumeration, when the five groups the
    component reads exist. *)
Lemma BaseButton_ok (tokens : DesignTokens) props i p
    colorG radiusG spacingG typographyG shadowG :
  default "primary" (intent props) = i →
  paletteFor tokens i = Ok (Own p) →
  getProp tokens "color" = Some colorG →
  getProp tokens "radius" = Some radiusG →
  getProp tokens "spacing" = Some spacingG →
  getProp tokens "typography" = Some typographyG →
  getProp tokens "shadow" = Some shadowG →
  ∃ el, BaseButton tokens props = Ok el
    ∧ el_type el = default "button" (type props)
    ∧ el_rest el = rest props
    ∧ ∀ k v,
        In (k, v)
          [ ("background", ofToken (background p));
            ("color", ofToken (color p));
            ("borderRadius", ofToken (getProp radiusG "md"));
            ("padding", VStr (toStr (getProp spacingG "sm") +:+ " "
                              +:+ toStr (getProp spacingG "lg")));
            ("fontFamily", ofToken (getProp typographyG "font_family"));
            ("fontSize", ofToken (getProp typographyG "font_size_md"));
            ("fontWeight",
               parseInt (getProp typographyG "font_weight_semibold"));
            ("boxShadow", ofToken (getProp shadowG "soft")) ] →
        styleSets props k = false →
        el_style el !! k = Some v.
Proof.
  intros Hi Hp Hc Hr Hs Ht Hsh. unfold BaseButton.
  rewrite Hi, Hp. simpl.
  rewrite (tokenStyle_own _ _ _ _ _ _ _ Hc Hr Hs Ht Hsh). simpl.
  eexists. split; [reflexivity|]. simpl. split; [done|]. split; [done|].
  intros k v Hin Hk. rewrite (spread_lookup _ _ _ Hk). simpl in Hin.
  repeat (destruct Hin as [[= <- <-]|Hin]; [literal_lookup|]).
  destruct Hin.
Qed.

(** The table of the specification has one row per intent. *)
Example paletteTable_intents : map fst paletteTable = intents.
Proof. reflexivity. Qed.

Example parseInt_weight : parseInt (Some "600") = VNum 600.
Proof. reflexivity. Qed.

Example parseInt_prefix : parseInt (Some " -12px") = VNum (-12).
Proof. reflexivity. Qed.

Example parseInt_undefined : parseInt None = VNaN.
Proof. reflexivity. Qed.

(** C2.  For each row (intent, background token, foreground token) of the
    fixed table -- primary: primary / primary_text, secondary: surface /
    secondary_text, danger: danger / primary_text -- the palette lookup for
    that intent returns exactly the pair of the values the token store holds
    for these two [color] tokens. *)
Theorem paletteFor_table (tokens : DesignTokens) i bgName fgName bg fg :
  In (i, (bgName, fgName)) paletteTable →
  Tokens.member tokens "color" bgName = Ok bg →
  Tokens.member tokens "color" fgName = Ok fg →
  paletteFor tokens i = Ok (Own {| background := bg; color := fg |}).
Proof. apply paletteFor_row. Qed.

Lemma paletteFor_table_witness :
  paletteFor sampleTokens "primary"
  = Ok (Own {| background := Some "#2563EB"; color := Some "#FFFFFF" |}).
Proof.
  apply (paletteFor_table sampleTokens "primary" "primary" "primary_text").
  - simpl. tauto.
  - reflexivity.
  - reflexivity.
Defined.

(** C4 (as amended).  An intent string outside the enumeration never selects
    a palette of the table, so no colour is substituted for it; and unless the
    string names a member every object inherits from [Object.prototype],
    rendering fails at once, with the [TypeError] of reading a property of
    [undefined]. *)
Theorem unknown_intent_fails (tokens : DesignTokens) props s :
  intent props = Some s → ¬ In s intents →
  (∀ p, paletteFor tokens s ≠ Ok (Own p))
  ∧ (¬ In s objectPrototypeKeys → BaseButton tokens props = Throw TypeError).
Proof.
  intros Hs Hnot. split.
  - intros p Hp. apply (paletteFor_not_own _ _ _ Hnot) in Hp.
    by case_decide.
  - intros Hproto. unfold BaseButton. rewrite Hs. simpl.
    destruct (paletteFor tokens s) as [looked|[]] eqn:Hp; [|done].
    apply (paletteFor_not_own _ _ _ Hnot) in Hp. subst looked.
    rewrite decide_False; [done|].
    intros Hin. by apply Hproto, list_elem_of_In.
Qed.

Lemma unknown_intent_fails_witness :
  (∀ p, paletteFor sampleTokens "info" ≠ Ok (Own p))
  ∧ (¬ In "info" objectPrototypeKeys →
     BaseButton sampleTokens (withIntent (Some "info")) = Throw TypeError).
Proof.
  apply (unknown_intent_fails sampleTokens (withIntent (Some "info")) "info").
  - reflexivity.
  - simpl. intros H. repeat destruct H as [H|H]; done.
Defined.

(** The example of the specification: ["info"] is not an inherited name, so
    rendering it raises. *)
Example info_intent_throws :
  BaseButton sampleTokens (withIntent (Some "info")) = Throw TypeError.
Proof. vm_compute. reflexivity. Qed.

(** C4 as stated fails: ["constructor"] is outside the enumeration, yet
    rendering it does not fail; the lookup finds the inherited member and the
    button is rendered with [background] and [color] undefined. *)
Lemma inherited_intent_renders :
  ¬ In "constructor" intents
  ∧ ∃ el, BaseButton sampleTokens (withIntent (Some "constructor")) = Ok el
      ∧ el_style el !! "background" = Some VUndef
      ∧ el_style el !! "color" = Some VUndef.
Proof.
  split.
  - simpl. intros H. repeat destruct H as [H|H]; done.
  - eexists. split; [vm_compute; reflexivity|].
    split; vm_compute; reflexivity.
Qed.

(** C9 (as amended).  For every intent of the enumeration the button renders,
    and each token-derived property of its style that the caller's [style]
    prop does not define has the value fixed by the intent's palette and the
    structural tokens: [background] and [color] are the palette's,
    [borderRadius] is [radius.md], [padding] is [spacing.sm] and [spacing.lg]
    separated by a space, [fontFamily], [fontSize] and [fontWeight] come from
    the typography tokens, [boxShadow] is [shadow.soft].  The remaining props
    ([type], [rest]) have no influence on them. *)
Theorem BaseButton_style (tokens : DesignTokens) props i
    colorG radiusG spacingG typographyG shadowG :
  In i intents → intent props = Some i →
  getProp tokens "color" = Some colorG →
  getProp tokens "radius" = Some radiusG →
  getProp tokens "spacing" = Some spacingG →
  getProp tokens "typography" = Some typographyG →
  getProp tokens "shadow" = Some shadowG →
  ∃ p el,
    paletteFor tokens i = Ok (Own p)
    ∧ BaseButton tokens props = Ok el
    ∧ ∀ k v,
        In (k, v)
          [ ("background", ofToken (background p));
            ("color", ofToken (color p));
            ("borderRadius", ofToken (getProp radiusG "md"));
            ("padding", VStr (toStr (getProp spacingG "sm") +:+ " "
                              +:+ toStr (getProp spacingG "lg")));
            ("fontFamily", ofToken (getProp typographyG "font_family"));
            ("fontSize", ofToken (getProp typographyG "font_size_md"));
            ("fontWeight",
               parseInt (getProp typographyG "font_weight_semibold"));
            ("boxShadow", ofToken (getProp shadowG "soft")) ] →
        styleSets props k = false →
        el_style el !! k = Some v.
Proof.
  intros Hi Hprops Hc Hr Hs Ht Hsh.
  assert (∃ p, paletteFor tokens i = Ok (Own p)) as [p Hp].
  { unfold paletteFor. rewrite (intentToColor_ok _ _ Hc). simpl in Hi.
    destruct Hi as [<-|[<-|[<-|[]]]]; eexists; reflexivity. }
  destruct (BaseButton_ok tokens props i p
              colorG radiusG spacingG typographyG shadowG)
    as (el & Hel & _ & _ & Hst); try done.
  { by rewrite Hprops. }
  by exists p, el.
Qed.

Lemma BaseButton_style_witness :
  ∃ p el,
    paletteFor sampleTokens "danger" = Ok (Own p)
    ∧ BaseButton sampleTokens (withIntent (Some "danger")) = Ok el
    ∧ ∀ k v,
        In (k, v)
          [ ("background", ofToken (background p));
            ("color", ofToken (color p));
            ("borderRadius", VStr "8px");
            ("padding", VStr "8px 16px");
            ("fontFamily", VStr "Inter, sans-serif");
            ("fontSize", VStr "16px");
            ("fontWeight", VNum 600);
            ("boxShadow", VStr "0 1px 2px rgba(0,0,0,0.1)") ] →
        styleSets (withIntent (Some "danger")) k = false →
        el_style el !! k = Some v.
Proof.
  apply (BaseButton_style sampleTokens (withIntent (Some "danger")) "danger"
           sampleColor sampleRadius sampleSpacing sampleTypography
           sampleShadow);
    try reflexivity.
  simpl. tauto.
Defined.

(** C9 as stated fails: with the same intent and tokens, a [style] prop that
    defines [background] replaces the palette's background. *)
Lemma style_prop_overrides :
  ∃ el el',
    BaseButton sampleTokens (withIntent (Some "primary")) = Ok el
    ∧ BaseButton sampleTokens
        {| intent := Some "primary";
           style := Some {[ "background" := VStr "red" ]};
           type := None; rest := ∅ |} = Ok el'
    ∧ el_style el !! "background" = Some (VStr "#2563EB")
    ∧ el_style el' !! "background" = Some (VStr "red").
Proof.
  do 2 eexists. split; [vm_compute; reflexivity|].
  split; [vm_compute; reflexivity|].
  split; vm_compute; reflexivity.
Qed.

(** C10.  Called without an intent, the button does not fail: it renders as
    it does for [intent = "primary"], with the primary palette,
    [background = color.primary] and [color = color.primary_text] (where the
    caller's [style] does not define them). *)
Theorem BaseButton_default_intent (tokens : DesignTokens) props
    colorG radiusG spacingG typographyG shadowG :
  intent props = None →
  getProp tokens "color" = Some colorG →
  getProp tokens "radius" = Some radiusG →
  getProp tokens "spacing" = Some spacingG →
  getProp tokens "typography" = Some typographyG →
  getProp tokens "shadow" = Some shadowG →
  BaseButton tokens props
  = BaseButton tokens {| intent := Some "primary"; style := style props;
                         type := type props; rest := rest props |}
  ∧ ∃ el,
      BaseButton tokens props = Ok el
      ∧ (styleSets props "background" = false →
         el_style el !! "background"
         = Some (ofToken (getProp colorG "primary")))
      ∧ (styleSets props "color" = false →
         el_style el !! "color"
         = Some (ofToken (getProp colorG "primary_text"))).
Proof.
  intros Hnone Hc Hr Hs Ht Hsh. split.
  - unfold BaseButton. simpl. by rewrite Hnone.
  - destruct (BaseButton_ok tokens props "primary"
                {| background := getProp colorG "primary";
                   color := getProp colorG "primary_text" |}
                colorG radiusG spacingG typographyG shadowG)
      as (el & Hel & _ & _ & Hst); try done.
    { by rewrite Hnone. }
    { unfold paletteFor. by rewrite (intentToColor_ok _ _ Hc). }
    exists el. split; [done|]. split; intros Hk.
    + apply Hst; [|done]. simpl. tauto.
    + apply Hst; [|done]. simpl. tauto.
Qed.

Lemma BaseButton_default_intent_witness :
  ∃ el,
    BaseButton sampleTokens (withIntent None) = Ok el
    ∧ (styleSets (withIntent None) "background" = false →
       el_style el !! "background" = Some (VStr "#2563EB"))
    ∧ (styleSets (withIntent None) "color" = false →
       el_style el !! "color" = Some (VStr "#FFFFFF")).
Proof.
  apply (proj2 (BaseButton_default_intent sampleTokens (withIntent None)
           sampleColor sampleRadius sampleSpacing sampleTypography
           sampleShadow eq_refl eq_refl eq_refl eq_refl eq_refl eq_refl)).
Defined.

End ButtonClaims.

(** ** Claims about the gate-status machine *)

Module GateClaims.
Import Gate.

(** A rejected event leaves the gate as it was. *)
Lemma transition_failure_keeps_state (ev : GateEvent) (g g' : StepGate) e :
  transition ev g = (g', Some e) → g' = g ∧ e = InvalidGateTransition.
Proof.
  unfold transition. destruct (next g ev); by intros [= <- <-].
Qed.

(** The terminal state accepts no event. *)
Lemma terminal_no_transition (ev : GateEvent) (g : StepGate) :
  terminal g = true → transition ev g = (g, Some InvalidGateTransition).
Proof. unfold transition, next. by intros ->. Qed.

(** Every transition keeps the step the gate belongs to. *)
Lemma transition_stepId (ev : GateEvent) (g : StepGate) :
  stepId (transition ev g).1 = stepId g.
Proof.
  unfold transition, next.
  destruct (terminal g); [done|].
  destruct (status g), (decision g) as [[]|], ev; done.
Qed.

(** C3.  From [dirty[none]], [workCompleted] yields [clean[pending]]; then
    [userApproves] yields [clean[approved]], which is terminal (every further
    event is refused); [userApproves] applied again fails with
    [InvalidGateTransition] and the gate is still [clean[approved]]. *)
Theorem approval_path (g0 : StepGate) :
  status g0 = dirty → decision g0 = None →
  let '(g1, r1) := transition workCompleted g0 in
  let '(g2, r2) := transition userApproves g1 in
  let '(g3, r3) := transition userApproves g2 in
  (r1 = None ∧ status g1 = clean ∧ decision g1 = Some pending)
  ∧ (r2 = None ∧ status g2 = clean ∧ decision g2 = Some approved)
  ∧ (∀ ev, transition ev g2 = (g2, Some InvalidGateTransition))
  ∧ (r3 = Some InvalidGateTransition ∧ g3 = g2
     ∧ status g3 = clean ∧ decision g3 = Some approved).
Proof.
  destruct g0 as [id st dec]; simpl. intros -> ->.
  repeat split; try done.
Qed.

Lemma approval_path_witness :
  let '(g1, r1) := transition workCompleted (newGate "step-1") in
  let '(g2, r2) := transition userApproves g1 in
  let '(g3, r3) := transition userApproves g2 in
  (r1 = None ∧ status g1 = clean ∧ decision g1 = Some pending)
  ∧ (r2 = None ∧ status g2 = clean ∧ decision g2 = Some approved)
  ∧ (∀ ev, transition ev g2 = (g2, Some InvalidGateTransition))
  ∧ (r3 = Some InvalidGateTransition ∧ g3 = g2
     ∧ status g3 = clean ∧ decision g3 = Some approved).
Proof. apply (approval_path (newGate "step-1")); reflexivity. Defined.

(** The same path as a stream of events: one failure, final state
    [clean[approved]]. *)
Example approval_stream :
  run [workCompleted; userApproves; userApproves] (newGate "step-1")
  = ({| stepId := "step-1"; status := clean; decision := Some approved |},
     [InvalidGateTransition]).
Proof. reflexivity. Qed.

(** C8.  From [clean[pending]], [userRejects] is legal and yields [dirty]
    with the decision cleared to none; it is not kept as [rejected]. *)
Theorem reject_clears_decision (g : StepGate) :
  status g = clean → decision g = Some pending →
  transition userRejects g
  = ({| stepId := stepId g; status := dirty; decision := None |}, None).
Proof.
  destruct g as [id st dec]; simpl. by intros -> ->.
Qed.

Lemma reject_clears_decision_witness :
  transition userRejects
    {| stepId := "step-1"; status := clean; decision := Some pending |}
  = ({| stepId := "step-1"; status := dirty; decision := None |}, None).
Proof.
  apply (reject_clears_decision
           {| stepId := "step-1"; status := clean; decision := Some pending |});
    reflexivity.
Defined.

End GateClaims.

(** ** Further properties of the export *)

Module ExportFacts.
Import Tokens TokensFacts VarNames.

(** A key assigned in a run of assignments is defined afterwards. *)
Lemma foldl_assign_is_Some {V : Type} (l : list (string * V))
    (m : gmap string V) k :
  is_Some (m !! k) ∨ (∃ v, In (k, v) l) → is_Some (foldl assign m l !! k).
Proof.
  revert m. induction l as [|[k' v'] l IH]; intros m H; simpl.
  - destruct H as [H|[v []]]. done.
  - apply IH. unfold assign; simpl.
    destruct (decide (k' = k)) as [->|Hne].
    + left. rewrite lookup_insert_eq. by eexists.
    + rewrite lookup_insert_ne by done.
      destruct H as [H|[v [H|H]]]; [by left|congruence|right; by exists v].
Qed.

(** A run of assignments on [m] is the run on the empty object, laid over
    [m]. *)
Lemma foldl_assign_union {V : Type} (l : list (string * V))
    (m : gmap string V) :
  foldl assign m l = foldl assign ∅ l ∪ m.
Proof.
  revert m. induction l as [|[k v] l IH]; intros m; simpl.
  - by rewrite (left_id_L ∅ (∪)).
  - rewrite IH, (IH (assign ∅ (k, v))). unfold assign; simpl.
    rewrite <- (assoc_L (∪)). f_equal.
    by rewrite !insert_union_singleton_l, (right_id_L ∅ (∪)).
Qed.

Lemma foldl_assign_size_le {V : Type} (l : list (string * V))
    (m : gmap string V) :
  (size (foldl assign m l) ≤ size m + length l)%nat.
Proof.
  revert m. induction l as [|[k v] l IH]; intros m;
    cbn [foldl length]; [lia|].
  etrans; [apply IH|]. unfold assign; cbn [fst snd].
  rewrite map_size_insert. destruct (m !! k); cbn [id]; lia.
Qed.

Lemma foldl_assign_size {V : Type} (l : list (string * V))
    (m : gmap string V) :
  uniqueKeys l → (∀ k v, In (k, v) l → m !! k = None) →
  size (foldl assign m l) = (size m + length l)%nat.
Proof.
  unfold uniqueKeys. revert m.
  induction l as [|[k v] l IH]; intros m Hnd Hfresh;
    cbn [foldl length]; [lia|].
  simpl in Hnd. apply NoDup_cons in Hnd as [Hk Hnd].
  rewrite IH; [|done|].
  - unfold assign; cbn [fst snd]. rewrite map_size_insert_None; [lia|].
    apply (Hfresh k v). by left.
  - intros k' v' Hin. unfold assign; cbn [fst snd].
    rewrite lookup_insert_ne.
    + apply (Hfresh k' v'). by right.
    + intros <-. apply Hk, list_elem_of_In, in_map_iff. by exists (k, v').
Qed.

Lemma flatten_app (d1 d2 : DesignTokens) :
  flatten (d1 ++ d2) = flatten d1 ++ flatten d2.
Proof. unfold flatten. apply flat_map_app. Qed.

Lemma In_getProp {A : Type} (o : JsObject A) k a :
  uniqueKeys o → In (k, a) o → getProp o k = Some a.
Proof.
  unfold uniqueKeys. induction o as [|[k' a'] o IH]; simpl; [done|].
  intros Hnd Hin. apply NoDup_cons in Hnd as [Hk Hnd].
  case_decide as Heq.
  - destruct Hin as [[= _ ->]|Hin]; [done|]. subst k'.
    destruct Hk. apply list_elem_of_In, in_map_iff. by exists (k, a).
  - destruct Hin as [[= -> _]|Hin]; [done|]. by apply IH.
Qed.

Lemma hasToken_member (doc : DesignTokens) g n v :
  wellFormed doc → hasToken doc g n v → member doc g n = Ok (Some v).
Proof.
  intros [Hdoc Hgrp] (grp & Hg & Hn). unfold member, tokens.
  rewrite (In_getProp _ _ _ Hdoc Hg). f_equal.
  apply In_getProp; [by eapply Hgrp|done].
Qed.

(** Two names under the same group differ exactly when the token names do. *)
Lemma append_cancel (s a b : string) : s +:+ a = s +:+ b → a = b.
Proof.
  induction s as [|c s IH];
    change (String ?x ?s +:+ ?t) with (String x (s +:+ t));
    change ("" +:+ ?t) with t; [done|].
  intros [= H]. by apply IH.
Qed.

Lemma varName_same_group (g n n' : string) :
  varName g n = varName g n' → n = n'.
Proof.
  unfold varName. intros H.
  apply append_cancel, append_cancel in H.
  by apply (append_cancel "-") in H.
Qed.

(** In a well-formed document with hyphen-free group names no variable name
    is produced twice. *)
Lemma flatten_uniqueKeys (doc : DesignTokens) :
  wellFormed doc → hyphenFreeGroups doc → uniqueKeys (flatten doc).
Proof.
  unfold uniqueKeys. induction doc as [|[g grp] doc IH]; intros Hwf Hfree.
  - constructor.
  - destruct Hwf as [Hdoc Hgrp]. unfold uniqueKeys in Hdoc. simpl in Hdoc.
    apply NoDup_cons in Hdoc as [Hg Hdoc].
    change (flatten ((g, grp) :: doc))
      with (map (fun '(n, v) => (varName g n, v)) grp ++ flatten doc).
    rewrite map_app. apply NoDup_app. split; [|split].
    + assert (uniqueKeys grp) as Hu by (apply (Hgrp g); by left).
      clear -Hu. unfold uniqueKeys in Hu.
      induction grp as [|[n v] grp IHg]; simpl; [constructor|].
      simpl in Hu. apply NoDup_cons in Hu as [Hn Hu].
      apply NoDup_cons. split; [|by apply IHg].
      intros Hin. apply list_elem_of_In, in_map_iff in Hin as [[k v'] [Hk Hin]].
      apply in_map_iff in Hin as [[n' v''] [[= <- <-] Hin]]. simpl in Hk.
      apply varName_same_group in Hk as ->.
      apply Hn, list_elem_of_In, in_map_iff. by exists (n, v'').
    + intros k Hin1 Hin2.
      apply list_elem_of_In, in_map_iff in Hin1 as [[k1 v1] [Hk1 Hin1]].
      apply in_map_iff in Hin1 as [[n v] [[= <- <-] Hin1]].
      apply list_elem_of_In, in_map_iff in Hin2 as [[k2 v2] [Hk2 Hin2]].
      apply in_flatten in Hin2 as (g' & n' & (grp' & Hg' & Hn') & ->).
      simpl in Hk1, Hk2. subst k.
      apply varName_inj in Hk2 as [-> _].
      * apply Hg, list_elem_of_In, in_map_iff. by exists (g, grp').
      * apply (Hfree g' grp'). by right.
      * apply (Hfree g grp). by left.
    + apply IH.
      * split; [done|]. intros g' grp' Hin. apply (Hgrp g'). by right.
      * intros g' grp' Hin. apply (Hfree g' grp'). by right.
Qed.

(** The entries of the export of such a document are exactly its tokens. *)
Lemma cssVariables_entries (doc : DesignTokens) k v :
  wellFormed doc → hyphenFreeGroups doc →
  cssVariables doc !! k = Some v
  ↔ ∃ g n, hasToken doc g n v ∧ k = varName g n.
Proof.
  intros Hwf Hfree. split; [apply cssVariables_inv|].
  intros (g & n & Htok & ->). apply cssVariables_lookup; [done|].
  intros g' n' v' Htok' Heq. by eapply hyphenFree_same_value.
Qed.

End ExportFacts.

(** ** The export as a function of the document *)

Module ExportProperties.
Import Tokens TokensFacts VarNames ExportFacts.

(** Well-formedness and hyphen-freedom of a document written out in full. *)
Ltac concrete_wellFormed :=
  split;
  [ unfold uniqueKeys; simpl; compute_done
  | let Hin := fresh "Hin" in
    intros ? ? Hin; simpl in Hin;
    repeat (destruct Hin as [[= <- <-]|Hin];
            [unfold uniqueKeys; simpl; compute_done|]);
    destruct Hin ].

Ltac concrete_hyphenFree :=
  let Hin := fresh "Hin" in
  intros ? ? Hin; simpl in Hin;
  repeat (destruct Hin as [[= <- <-]|Hin]; [reflexivity|]);
  destruct Hin.

(** X1.  The keys of the export are exactly the variable names of the tokens
    of the document: every token has its name in the export, clash or not,
    and nothing else is there. *)
Theorem export_keys (doc : DesignTokens) (k : string) :
  is_Some (cssVariables doc !! k)
  ↔ ∃ g n v, hasToken doc g n v ∧ k = varName g n.
Proof.
  split.
  - intros [v Hv]. apply cssVariables_inv in Hv as (g & n & Htok & ->).
    by exists g, n, v.
  - intros (g & n & v & Htok & ->). rewrite cssVariables_flatten.
    apply foldl_assign_is_Some. right. exists v.
    apply in_flatten. by exists g, n.
Qed.

Lemma export_keys_witness :
  is_Some (cssVariables clashingTokens !! varName "color" "text-muted").
Proof.
  apply (proj2 (export_keys clashingTokens (varName "color" "text-muted"))).
  exists "color", "text-muted", "#666666". split; [|reflexivity].
  exists [ ("text-muted", "#666666") ]. split; simpl; tauto.
Defined.

(** X2.  Among tokens that share a variable name the last one in enumeration
    order wins: a token is exported with its own value when no later token of
    its group has its name and no token of a later group yields its variable
    name. *)
Theorem export_last_wins (d1 d2 : DesignTokens) g grp1 grp2 n v :
  (∀ v', ¬ In (n, v') grp2) →
  (∀ g' n' v', hasToken d2 g' n' v' → varName g' n' ≠ varName g n) →
  cssVariables (d1 ++ (g, grp1 ++ (n, v) :: grp2) :: d2) !! varName g n
  = Some v.
Proof.
  intros Hgrp Hlater. rewrite cssVariables_flatten, flatten_app.
  change (flatten ((g, grp1 ++ (n, v) :: grp2) :: d2))
    with (map (fun '(n, v) => (varName g n, v)) (grp1 ++ (n, v) :: grp2)
          ++ flatten d2).
  rewrite map_app. simpl. rewrite <- app_assoc, app_assoc. simpl.
  apply foldl_assign_last. intros v' Hin.
  apply in_app_or in Hin as [Hin|Hin].
  - apply in_map_iff in Hin as [[n' v''] [Heq Hin]].
    assert (varName g n' = varName g n) as Hk
      by (by apply (f_equal fst) in Heq).
    apply varName_same_group in Hk as ->. by apply (Hgrp v'').
  - apply in_flatten in Hin as (g' & n' & Htok & Hk).
    by apply (Hlater g' n' v').
Qed.

Lemma export_last_wins_witness :
  cssVariables clashingTokens !! varName "color-text" "muted" = Some "#999999".
Proof.
  apply (export_last_wins [ ("color", [ ("text-muted", "#666666") ]) ] []
           "color-text" [] [] "muted" "#999999").
  - intros v' [].
  - intros g' n' v' (grp & [] & _).
Defined.

(** X3.  The export of a document split in two is the export of the second
    part laid over the export of the first: later groups override earlier
    ones and add what is new. *)
Theorem export_app (d1 d2 : DesignTokens) :
  cssVariables (d1 ++ d2) = cssVariables d2 ∪ cssVariables d1.
Proof.
  rewrite !cssVariables_flatten, flatten_app, foldl_app.
  apply foldl_assign_union.
Qed.

(** X4.  The export never has more entries than the document has tokens, and
    for a well-formed document with hyphen-free group names it has exactly
    one entry per token: no token is lost. *)
Theorem export_size (doc : DesignTokens) :
  (size (cssVariables doc) ≤ length (flatten doc))%nat
  ∧ (wellFormed doc → hyphenFreeGroups doc →
     size (cssVariables doc) = length (flatten doc)).
Proof.
  rewrite cssVariables_flatten. split.
  - etrans; [apply foldl_assign_size_le|]. by rewrite map_size_empty.
  - intros Hwf Hfree. rewrite foldl_assign_size.
    + by rewrite map_size_empty.
    + by apply flatten_uniqueKeys.
    + intros k v _. apply lookup_empty.
Qed.

Lemma export_size_witness :
  size (cssVariables emptyGroupTokens) = length (flatten emptyGroupTokens).
Proof.
  apply (proj2 (export_size emptyGroupTokens)).
  - concrete_wellFormed.
  - concrete_hyphenFree.
Defined.

(** A clash loses a token: two tokens, one entry. *)
Example export_size_clash :
  size (cssVariables clashingTokens) = 1%nat
  ∧ length (flatten clashingTokens) = 2%nat.
Proof. split; vm_compute; reflexivity. Qed.

(** X5.  For well-formed documents with hyphen-free group names the export
    depends on the tokens only, not on the order of groups or of tokens
    within a group: two such documents with the same tokens have the same
    export. *)
Theorem export_order_irrelevant (d1 d2 : DesignTokens) :
  wellFormed d1 → hyphenFreeGroups d1 →
  wellFormed d2 → hyphenFreeGroups d2 →
  (∀ g n v, hasToken d1 g n v ↔ hasToken d2 g n v) →
  cssVariables d1 = cssVariables d2.
Proof.
  intros Hwf1 Hfree1 Hwf2 Hfree2 Hsame. apply map_eq. intros k.
  apply option_eq. intros v.
  rewrite !cssVariables_entries by done.
  split; intros (g & n & Htok & ->); exists g, n; split; try done;
    by apply Hsame.
Qed.

Lemma export_order_irrelevant_witness :
  cssVariables [ ("color", [ ("primary", "#2563EB") ]); ("shadow", []) ]
  = cssVariables [ ("shadow", []); ("color", [ ("primary", "#2563EB") ]) ].
Proof.
  apply export_order_irrelevant.
  - concrete_wellFormed.
  - concrete_hyphenFree.
  - concrete_wellFormed.
  - concrete_hyphenFree.
  - intros g n v. split; intros (grp & Hg & Hn); simpl in Hg.
    + destruct Hg as [[= <- <-]|[[= <- <-]|[]]]; [|destruct Hn].
      exists [ ("primary", "#2563EB") ]. split; [simpl; tauto|done].
    + destruct Hg as [[= <- <-]|[[= <- <-]|[]]]; [destruct Hn|].
      exists [ ("primary", "#2563EB") ]. split; [simpl; tauto|done].
Defined.

(** With a clash the order does matter. *)
Example export_order_clash :
  cssVariables (rev clashingTokens) ≠ cssVariables clashingTokens.
Proof.
  intros H.
  assert (cssVariables (rev clashingTokens) !! "--dc-color-text-muted"
          = cssVariables clashingTokens !! "--dc-color-text-muted") as H'
    by (by rewrite H).
  vm_compute in H'. discriminate.
Qed.

(** X6.  For a well-formed document with hyphen-free group names, a
    hyphen-free group name [g] and a token name [n], neither of them the name
    of a member inherited from [Object.prototype], the export and the typed
    accessor hold the same information: [--dc-g-n] is exported with value [v]
    exactly when [tokens.g.n] reads [v]. *)
Theorem export_roundtrip (doc : DesignTokens) g n v :
  wellFormed doc → hyphenFreeGroups doc → hasHyphen g = false →
  ¬ In g BaseButton.objectPrototypeKeys →
  ¬ In n BaseButton.objectPrototypeKeys →
  cssVariables doc !! varName g n = Some v ↔ member doc g n = Ok (Some v).
Proof.
  intros Hwf Hfree Hg _ _. rewrite cssVariables_entries by done. split.
  - intros (g' & n' & Htok & Heq). apply hasToken_member; [done|].
    destruct Htok as (grp & Hin & Hn).
    apply varName_inj in Heq as [-> ->]; [by exists grp|done|].
    by apply (Hfree g' grp).
  - intros Hread. exists g, n. split; [|done]. by apply member_hasToken.
Qed.

Lemma export_roundtrip_witness :
  cssVariables emptyGroupTokens !! varName "color" "primary" = Some "#2563EB"
  ↔ member emptyGroupTokens "color" "primary" = Ok (Some "#2563EB").
Proof.
  apply (export_roundtrip emptyGroupTokens "color" "primary" "#2563EB").
  - concrete_wellFormed.
  - concrete_hyphenFree.
  - reflexivity.
  - simpl. intros H. repeat destruct H as [H|H]; done.
  - simpl. intros H. repeat destruct H as [H|H]; done.
Defined.

(** Without the condition on [g] the export can hold a name the accessor
    cannot read. *)
Example export_roundtrip_hyphen :
  cssVariables clashingTokens !! varName "color-text" "muted" = Some "#999999"
  ∧ cssVariables [ ("color", [ ("text-muted", "#666666") ]) ]
      !! varName "color-text" "muted" = Some "#666666"
  ∧ member [ ("color", [ ("text-muted", "#666666") ]) ] "color-text" "muted"
    = Throw TypeError.
Proof. repeat split; vm_compute; reflexivity. Qed.

End ExportProperties.

(** ** Further facts about rendering *)

Module RenderFacts.
Import BaseButton ButtonFacts View.

(** One step of a successful computation. *)
Ltac bind_ok t x H :=
  destruct t as [x|?] eqn:H; [simpl|by simpl].

Lemma member_Ok_group (tokens : DesignTokens) g n t :
  Tokens.member tokens g n = Ok t → is_Some (getProp tokens g).
Proof.
  unfold Tokens.member, Tokens.tokens. by destruct (getProp tokens g).
Qed.

(** A successful style computation read backwards. *)
Lemma tokenStyle_inv (tokens : DesignTokens) palette base :
  tokenStyle tokens palette = Ok base →
  ∃ bg fg radius_md border sm lg family fsize weight soft,
    readField background palette = Ok bg
    ∧ readField color palette = Ok fg
    ∧ Tokens.member tokens "radius" "md" = Ok radius_md
    ∧ Tokens.member tokens "color" "border" = Ok border
    ∧ Tokens.member tokens "spacing" "sm" = Ok sm
    ∧ Tokens.member tokens "spacing" "lg" = Ok lg
    ∧ Tokens.member tokens "typography" "font_family" = Ok family
    ∧ Tokens.member tokens "typography" "font_size_md" = Ok fsize
    ∧ Tokens.member tokens "typography" "font_weight_semibold" = Ok weight
    ∧ Tokens.member tokens "shadow" "soft" = Ok soft
    ∧ base = objectLiteral
        [ ("background", bg);
          ("color", fg);
          ("borderRadius", ofToken radius_md);
          ("border", VStr ("1px solid " +:+ toStr border));
          ("padding", VStr (toStr sm +:+ " " +:+ toStr lg));
          ("fontFamily", ofToken family);
          ("fontSize", ofToken fsize);
          ("fontWeight", parseInt weight);
          ("boxShadow", ofToken soft);
          ("cursor", VStr "pointer");
          ("transition", VStr "transform 0.2s ease, box-shadow 0.2s ease") ].
Proof.
  unfold tokenStyle.
  bind_ok (readField background palette) bg Hbg.
  bind_ok (readField color palette) fg Hfg.
  bind_ok (Tokens.member tokens "radius" "md") radius_md H1.
  bind_ok (Tokens.member tokens "color" "border") border H2.
  bind_ok (Tokens.member tokens "spacing" "sm") sm H3.
  bind_ok (Tokens.member tokens "spacing" "lg") lg H4.
  bind_ok (Tokens.member tokens "typography" "font_family") family H5.
  bind_ok (Tokens.member tokens "typography" "font_size_md") fsize H6.
  bind_ok (Tokens.member tokens "typography" "font_weight_semibold") weight H7.
  bind_ok (Tokens.member tokens "shadow" "soft") soft H8.
  intros [= <-].
  by exists bg, fg, radius_md, border, sm, lg, family, fsize, weight, soft.
Qed.

(** The style computation when the groups exist and the palette lookup did
    not yield [undefined]. *)
Lemma tokenStyle_groups (tokens : DesignTokens) palette bg fg
    colorG radiusG spacingG typographyG shadowG :
  readField background palette = Ok bg →
  readField color palette = Ok fg →
  getProp tokens "color" = Some colorG →
  getProp tokens "radius" = Some radiusG →
  getProp tokens "spacing" = Some spacingG →
  getProp tokens "typography" = Some typographyG →
  getProp tokens "shadow" = Some shadowG →
  tokenStyle tokens palette
  = Ok (objectLiteral
      [ ("background", bg);
        ("color", fg);
        ("borderRadius", ofToken (getProp radiusG "md"));
        ("border", VStr ("1px solid " +:+ toStr (getProp colorG "border")));
        ("padding", VStr (toStr (getProp spacingG "sm") +:+ " "
                          +:+ toStr (getProp spacingG "lg")));
        ("fontFamily", ofToken (getProp typographyG "font_family"));
        ("fontSize", ofToken (getProp typographyG "font_size_md"));
        ("fontWeight", parseInt (getProp typographyG "font_weight_semibold"));
        ("boxShadow", ofToken (getProp shadowG "soft"));
        ("cursor", VStr "pointer");
        ("transition", VStr "transform 0.2s ease, box-shadow 0.2s ease") ]).
Proof.
  intros Hbg Hfg Hc Hr Hs Ht Hsh. unfold tokenStyle.
  rewrite Hbg, Hfg.
  rewrite (member_group _ _ _ _ Hc), (member_group _ _ _ _ Hr),
    !(member_group _ _ _ _ Hs), !(member_group _ _ _ _ Ht),
    (member_group _ _ _ _ Hsh).
  reflexivity.
Qed.

(** A successful rendering read backwards. *)
Lemma BaseButton_inv (tokens : DesignTokens) props el :
  BaseButton tokens props = Ok el →
  ∃ palette base,
    paletteFor tokens (default "primary" (intent props)) = Ok palette
    ∧ tokenStyle tokens palette = Ok base
    ∧ el = {| el_rest := rest props;
              el_type := default "button" (type props);
              el_style := spread base (style props) |}.
Proof.
  unfold BaseButton.
  bind_ok (paletteFor tokens (default "primary" (intent props))) palette Hp.
  bind_ok (tokenStyle tokens palette) base Hb.
  intros [= <-]. by exists palette, base.
Qed.

(** The palette lookup when the [color] group exists. *)
Lemma paletteFor_cases (tokens : DesignTokens) colorG i :
  getProp tokens "color" = Some colorG →
  (In i intents → ∃ p, paletteFor tokens i = Ok (Own p))
  ∧ (¬ In i intents → In i objectPrototypeKeys →
     paletteFor tokens i = Ok Inherited)
  ∧ (¬ In i intents → ¬ In i objectPrototypeKeys →
     paletteFor tokens i = Ok Undefined).
Proof.
  intros Hc. unfold paletteFor. rewrite (intentToColor_ok _ _ Hc). simpl.
  split; [|split].
  - intros [<-|[<-|[<-|[]]]]; eexists; reflexivity.
  - intros Hnot Hin. unfold lookupKey. rewrite getProp_None by done.
    rewrite decide_True; [done|]. by apply list_elem_of_In.
  - intros Hnot Hnin. unfold lookupKey. rewrite getProp_None by done.
    rewrite decide_False; [done|]. intros Hin.
    apply Hnin. exact (proj1 (list_elem_of_In _ _) Hin).
Qed.

Lemma groupsPresent_inv (tokens : DesignTokens) :
  groupsPresent tokens →
  ∃ colorG radiusG spacingG typographyG shadowG,
    getProp tokens "color" = Some colorG
    ∧ getProp tokens "radius" = Some radiusG
    ∧ getProp tokens "spacing" = Some spacingG
    ∧ getProp tokens "typography" = Some typographyG
    ∧ getProp tokens "shadow" = Some shadowG.
Proof.
  intros H.
  destruct (H "color") as [colorG Hc]; [simpl; tauto|].
  destruct (H "radius") as [radiusG Hr]; [simpl; tauto|].
  destruct (H "spacing") as [spacingG Hs]; [simpl; tauto|].
  destruct (H "typography") as [typographyG Ht]; [simpl; tauto|].
  destruct (H "shadow") as [shadowG Hsh]; [simpl; tauto|].
  by exists colorG, radiusG, spacingG, typographyG, shadowG.
Qed.

(** Rendering succeeds when the groups exist and the intent is one of the
    enumeration or an inherited name; the style is then the literal over the
    groups with the caller's style spread on top. *)
Lemma BaseButton_total (tokens : DesignTokens) props
    colorG radiusG spacingG typographyG shadowG :
  getProp tokens "color" = Some colorG →
  getProp tokens "radius" = Some radiusG →
  getProp tokens "spacing" = Some spacingG →
  getProp tokens "typography" = Some typographyG →
  getProp tokens "shadow" = Some shadowG →
  In (default "primary" (intent props)) intents
  ∨ In (default "primary" (intent props)) objectPrototypeKeys →
  ∃ palette bg fg,
    paletteFor tokens (default "primary" (intent props)) = Ok palette
    ∧ readField background palette = Ok bg
    ∧ readField color palette = Ok fg
    ∧ BaseButton tokens props
      = Ok {| el_rest := rest props;
              el_type := default "button" (type props);
              el_style :=
                spread
                  (objectLiteral
                     [ ("background", bg);
                       ("color", fg);
                       ("borderRadius", ofToken (getProp radiusG "md"));
                       ("border",
                          VStr ("1px solid "
                                +:+ toStr (getProp colorG "border")));
                       ("padding",
                          VStr (toStr (getProp spacingG "sm") +:+ " "
                                +:+ toStr (getProp spacingG "lg")));
                       ("fontFamily",
                          ofToken (getProp typographyG "font_family"));
                       ("fontSize",
                          ofToken (getProp typographyG "font_size_md"));
                       ("fontWeight",
                          parseInt
                            (getProp typographyG "font_weight_semibold"));
                       ("boxShadow", ofToken (getProp shadowG "soft"));
                       ("cursor", VStr "pointer");
                       ("transition",
                          VStr "transform 0.2s ease, box-shadow 0.2s ease") ])
                  (style props) |}.
Proof.
  intros Hc Hr Hs Ht Hsh Hi.
  set (i := default "primary" (intent props)) in *.
  destruct (paletteFor_cases tokens colorG i Hc) as (Hown & Hinh & _).
  assert (∃ palette bg fg,
            paletteFor tokens i = Ok palette
            ∧ readField background palette = Ok bg
            ∧ readField color palette = Ok fg) as (palette & bg & fg & Hp & Hbg & Hfg).
  { destruct (decide (i ∈ intents)) as [Hin|Hnin].
    - apply list_elem_of_In in Hin. destruct (Hown Hin) as [p Hp].
      by exists (Own p), (ofToken (background p)), (ofToken (color p)).
    - assert (¬ In i intents) as Hnin' by (by rewrite <- list_elem_of_In).
      destruct Hi as [Hi|Hi]; [done|].
      exists Inherited, VUndef, VUndef. split; [by apply Hinh|done]. }
  exists palette, bg, fg. split; [done|]. split; [done|]. split; [done|].
  unfold BaseButton. fold i. rewrite Hp. simpl.
  by rewrite (tokenStyle_groups _ _ _ _ _ _ _ _ _ Hbg Hfg Hc Hr Hs Ht Hsh).
Qed.

(** The names an object literal defines. *)
Lemma dom_objectLiteral (props : list (string * JsVal)) :
  dom (objectLiteral props) = list_to_set (map fst props).
Proof.
  unfold objectLiteral.
  assert (∀ m : gmap string JsVal,
            dom (foldl assign m props)
            = list_to_set (map fst props) ∪ dom m) as H.
  { induction props as [|[k v] props IH]; intros m; simpl.
    - by rewrite (left_id_L ∅ (∪)).
    - rewrite IH. unfold assign; simpl. rewrite dom_insert_L.
      by rewrite (assoc_L (∪)), (comm_L (∪) (list_to_set _) {[k]}). }
  by rewrite H, dom_empty_L, (right_id_L ∅ (∪)).
Qed.

End RenderFacts.

(** ** Rendering: when it succeeds and what it yields *)

Module RenderProperties.
Import BaseButton ButtonFacts View RenderFacts.

Ltac literal_read :=
  unfold objectLiteral; simpl; unfold assign; simpl;
  repeat (rewrite lookup_insert_ne by done);
  apply lookup_insert_eq.

(** X7.  [BaseButton] renders exactly when the document has the five groups
    it reads ([color], [radius], [spacing], [typography], [shadow]) and the
    intent (["primary"] when omitted) is one of the enumeration or a name
    inherited from [Object.prototype]; in every other case it raises
    [TypeError]. *)
Theorem BaseButton_renders_iff (tokens : DesignTokens) props :
  (∃ el, BaseButton tokens props = Ok el)
  ↔ groupsPresent tokens
    ∧ (In (default "primary" (intent props)) intents
       ∨ In (default "primary" (intent props)) objectPrototypeKeys).
Proof.
  set (i := default "primary" (intent props)). split.
  - intros [el Hel].
    apply BaseButton_inv in Hel as (palette & base & Hp & Hb & _). fold i in Hp.
    apply tokenStyle_inv in Hb
      as (bg & fg & ? & ? & ? & ? & ? & ? & ? & ?
          & Hbg & _ & Hr & Hc & Hs & _ & Ht & _ & _ & Hsh & _).
    split.
    + intros g Hg. simpl in Hg.
      destruct Hg as [<-|[<-|[<-|[<-|[<-|[]]]]]];
        eauto using member_Ok_group.
    + destruct (decide (i ∈ intents)) as [Hin|Hnin];
        [left; by apply list_elem_of_In|right].
      assert (¬ In i intents) as Hnin' by (by rewrite <- list_elem_of_In).
      apply (paletteFor_not_own _ _ _ Hnin') in Hp. subst palette.
      destruct (decide (i ∈ objectPrototypeKeys)) as [Hin|?]; [|done].
      by apply list_elem_of_In.
  - intros [Hgroups Hi].
    destruct (groupsPresent_inv _ Hgroups)
      as (colorG & radiusG & spacingG & typographyG & shadowG
          & Hc & Hr & Hs & Ht & Hsh).
    destruct (BaseButton_total tokens props _ _ _ _ _ Hc Hr Hs Ht Hsh Hi)
      as (palette & bg & fg & _ & _ & _ & Hel).
    eexists. exact Hel.
Qed.

Lemma BaseButton_renders_iff_witness :
  ∃ el, BaseButton sampleTokens (withIntent (Some "danger")) = Ok el.
Proof.
  apply (proj2 (BaseButton_renders_iff sampleTokens
                  (withIntent (Some "danger")))).
  split.
  - intros g Hg. simpl in Hg.
    destruct Hg as [<-|[<-|[<-|[<-|[<-|[]]]]]]; by eexists.
  - left. simpl. tauto.
Defined.

(** X8.  A rendered button's style has exactly the eleven properties of the
    component's literal together with whatever the caller's [style] prop
    defines. *)
Theorem style_keys (tokens : DesignTokens) props el :
  BaseButton tokens props = Ok el →
  dom (el_style el)
  = match style props with Some s => dom s | None => ∅ end
    ∪ list_to_set baseStyleKeys.
Proof.
  intros Hel. apply BaseButton_inv in Hel as (palette & base & _ & Hb & ->).
  apply tokenStyle_inv in Hb
    as (? & ? & ? & ? & ? & ? & ? & ? & ? & ?
        & _ & _ & _ & _ & _ & _ & _ & _ & _ & _ & ->).
  simpl. unfold spread. destruct (style props) as [s|].
  - by rewrite dom_union_L, dom_objectLiteral.
  - by rewrite dom_objectLiteral, (left_id_L ∅ (∪)).
Qed.

Lemma style_keys_witness :
  ∃ el,
    BaseButton sampleTokens (withIntent (Some "toString")) = Ok el
    ∧ dom (el_style el) = ∅ ∪ list_to_set baseStyleKeys.
Proof.
  eexists. split; [vm_compute; reflexivity|].
  apply (style_keys sampleTokens (withIntent (Some "toString"))).
  vm_compute. reflexivity.
Defined.

(** X9.  Whatever the caller's [style] prop defines ends up in the rendered
    style with the caller's value, be it one of the component's properties or
    a new one. *)
Theorem caller_style_wins (tokens : DesignTokens) props el s k v :
  BaseButton tokens props = Ok el →
  style props = Some s → s !! k = Some v →
  el_style el !! k = Some v.
Proof.
  intros Hel Hs Hk. apply BaseButton_inv in Hel as (? & base & _ & _ & ->).
  simpl. rewrite Hs. by apply spread_override.
Qed.

Lemma caller_style_wins_witness :
  ∃ el,
    BaseButton sampleTokens
      {| intent := None; style := Some {[ "opacity" := VNum 1 ]};
         type := None; rest := ∅ |} = Ok el
    ∧ el_style el !! "opacity" = Some (VNum 1).
Proof.
  eexists. split; [vm_compute; reflexivity|].
  apply (caller_style_wins sampleTokens
           {| intent := None; style := Some {[ "opacity" := VNum 1 ]};
              type := None; rest := ∅ |} _ {[ "opacity" := VNum 1 ]}).
  - vm_compute. reflexivity.
  - reflexivity.
  - reflexivity.
Defined.

(** X10.  Unless the caller's style defines them, a rendered button has
    [cursor: pointer], the fixed [transition], and the border
    [1px solid <color.border>]. *)
Theorem fixed_fields (tokens : DesignTokens) props el :
  BaseButton tokens props = Ok el →
  (styleSets props "cursor" = false →
   el_style el !! "cursor" = Some (VStr "pointer"))
  ∧ (styleSets props "transition" = false →
     el_style el !! "transition"
     = Some (VStr "transform 0.2s ease, box-shadow 0.2s ease"))
  ∧ (styleSets props "border" = false →
     ∃ border,
       Tokens.member tokens "color" "border" = Ok border
       ∧ el_style el !! "border"
         = Some (VStr ("1px solid " +:+ toStr border))).
Proof.
  intros Hel. apply BaseButton_inv in Hel as (palette & base & _ & Hb & ->).
  apply tokenStyle_inv in Hb
    as (? & ? & ? & border & ? & ? & ? & ? & ? & ?
        & _ & _ & _ & Hborder & _ & _ & _ & _ & _ & _ & ->).
  simpl. split; [|split]; intros Hk; rewrite (spread_lookup _ _ _ Hk).
  - literal_read.
  - literal_read.
  - exists border. split; [done|]. literal_read.
Qed.

Lemma fixed_fields_witness :
  ∃ el,
    BaseButton sampleTokens (withIntent None) = Ok el
    ∧ el_style el !! "cursor" = Some (VStr "pointer").
Proof.
  eexists. split; [vm_compute; reflexivity|].
  apply (fixed_fields sampleTokens (withIntent None));
    [vm_compute; reflexivity|reflexivity].
Defined.

(** X11.  A token name missing from an existing group does not make the
    button fail: it renders, with [borderRadius] undefined, the text
    ["undefined"] inside [padding] and [border], and [fontWeight] [NaN]. *)
Theorem missing_names_render (tokens : DesignTokens) props
    colorG radiusG spacingG typographyG shadowG :
  getProp tokens "color" = Some colorG →
  getProp tokens "radius" = Some radiusG →
  getProp tokens "spacing" = Some spacingG →
  getProp tokens "typography" = Some typographyG →
  getProp tokens "shadow" = Some shadowG →
  In (default "primary" (intent props)) intents →
  style props = None →
  ∃ el,
    BaseButton tokens props = Ok el
    ∧ (getProp radiusG "md" = None →
       el_style el !! "borderRadius" = Some VUndef)
    ∧ (getProp spacingG "sm" = None →
       el_style el !! "padding"
       = Some (VStr ("undefined " +:+ toStr (getProp spacingG "lg"))))
    ∧ (getProp colorG "border" = None →
       el_style el !! "border" = Some (VStr "1px solid undefined"))
    ∧ (getProp typographyG "font_weight_semibold" = None →
       el_style el !! "fontWeight" = Some VNaN).
Proof.
  intros Hc Hr Hs Ht Hsh Hi Hstyle.
  destruct (BaseButton_total tokens props _ _ _ _ _ Hc Hr Hs Ht Hsh
              (or_introl Hi))
    as (palette & bg & fg & _ & _ & _ & Hel).
  eexists. split; [exact Hel|]. simpl. rewrite Hstyle. simpl.
  repeat split; intros ->; literal_read.
Qed.

Lemma missing_names_render_witness :
  ∃ el,
    BaseButton [ ("color", []); ("radius", []); ("spacing", []);
                 ("typography", []); ("shadow", []) ] (withIntent None)
    = Ok el
    ∧ (@getProp string [] "md" = None →
       el_style el !! "borderRadius" = Some VUndef)
    ∧ (@getProp string [] "sm" = None →
       el_style el !! "padding" = Some (VStr "undefined undefined"))
    ∧ (@getProp string [] "border" = None →
       el_style el !! "border" = Some (VStr "1px solid undefined"))
    ∧ (@getProp string [] "font_weight_semibold" = None →
       el_style el !! "fontWeight" = Some VNaN).
Proof.
  apply (missing_names_render
           [ ("color", []); ("radius", []); ("spacing", []);
             ("typography", []); ("shadow", []) ] (withIntent None)
           [] [] [] [] []); try reflexivity.
  simpl. tauto.
Defined.

(** X12.  On the rendered [<button>] the component's [type], [style] and two
    mouse handlers replace whatever [rest] holds under these names; every
    other attribute of [rest] is passed through unchanged, and [type] is
    ["button"] unless the caller gave one. *)
Theorem button_attributes (tokens : DesignTokens) props el :
  BaseButton tokens props = Ok el →
  buttonAttrs el !! "type"
  = Some (Plain (VStr (default "button" (type props))))
  ∧ buttonAttrs el !! "style" = Some (Style (el_style el))
  ∧ buttonAttrs el !! "onMouseEnter" = Some (Listener MouseEnter)
  ∧ buttonAttrs el !! "onMouseLeave" = Some (Listener MouseLeave)
  ∧ ∀ k, ¬ In k [ "type"; "style"; "onMouseEnter"; "onMouseLeave" ] →
         buttonAttrs el !! k = Plain <$> rest props !! k.
Proof.
  intros Hel. apply BaseButton_inv in Hel as (? & base & _ & _ & ->).
  unfold buttonAttrs. simpl.
  split; [|split; [|split; [|split]]].
  - do 3 (rewrite lookup_insert_ne by done). apply lookup_insert_eq.
  - do 2 (rewrite lookup_insert_ne by done). apply lookup_insert_eq.
  - rewrite lookup_insert_ne by done. apply lookup_insert_eq.
  - apply lookup_insert_eq.
  - intros k Hk.
    rewrite !lookup_insert_ne, lookup_fmap; [done|..];
      intros <-; apply Hk; simpl; tauto.
Qed.

Lemma button_attributes_witness :
  ∃ el,
    BaseButton sampleTokens
      {| intent := None; style := None; type := None;
         rest := {[ "onMouseEnter" := VStr "mine" ]} |} = Ok el
    ∧ buttonAttrs el !! "onMouseEnter" = Some (Listener MouseEnter).
Proof.
  eexists. split; [vm_compute; reflexivity|].
  apply (button_attributes sampleTokens
           {| intent := None; style := None; type := None;
              rest := {[ "onMouseEnter" := VStr "mine" ]} |}).
  vm_compute. reflexivity.
Defined.

(** X13.  The mouse handlers write [transform] and nothing else, and the last
    event decides: after entering and leaving, [transform] is
    [translateY(0)] whatever it was before, so a [transform] given by the
    caller's style is not restored. *)
Theorem hover_last_event (nodeStyle : gmap string JsVal) (h h' : Handler) :
  fire h (fire h' nodeStyle) = fire h nodeStyle
  ∧ (∀ k, k ≠ "transform" → fire h nodeStyle !! k = nodeStyle !! k)
  ∧ fire MouseLeave (fire MouseEnter nodeStyle) !! "transform"
    = Some (VStr "translateY(0)")
  ∧ fire MouseEnter nodeStyle !! "transform"
    = Some (VStr "translateY(-1px)").
Proof.
  split; [|split; [|split]].
  - destruct h, h'; unfold fire, onMouseEnter, onMouseLeave;
      apply insert_insert_eq.
  - intros k Hk. destruct h; unfold fire, onMouseEnter, onMouseLeave;
      by rewrite lookup_insert_ne.
  - unfold fire, onMouseEnter, onMouseLeave. apply lookup_insert_eq.
  - unfold fire, onMouseEnter. apply lookup_insert_eq.
Qed.

Lemma hover_last_event_witness :
  fire MouseEnter {[ "transform" := VStr "rotate(5deg)" ]} !! "color"
  = ({[ "transform" := VStr "rotate(5deg)" ]} : gmap string JsVal) !! "color".
Proof.
  apply (proj1 (proj2 (hover_last_event
                         {[ "transform" := VStr "rotate(5deg)" ]}
                         MouseEnter MouseLeave))).
  discriminate.
Defined.

End RenderProperties.

(** ** main.tsx *)

Module AppProperties.
Import BaseButton ButtonFacts View RenderFacts.

(** [App] when the five groups exist: its tree holds the two rendered
    buttons. *)
Lemma App_groups (tokens : DesignTokens)
    colorG radiusG spacingG typographyG shadowG approve decline :
  getProp tokens "color" = Some colorG →
  getProp tokens "radius" = Some radiusG →
  getProp tokens "spacing" = Some spacingG →
  getProp tokens "typography" = Some typographyG →
  getProp tokens "shadow" = Some shadowG →
  BaseButton tokens (withIntent (Some "primary")) = Ok approve →
  BaseButton tokens (withIntent (Some "secondary")) = Ok decline →
  ∃ tree, App tokens = Ok tree ∧ buttons tree = [approve; decline].
Proof.
  intros Hc Hr Hs Ht Hsh Ha Hd. unfold App.
  change (Tokens.useDesignTokens tokens) with tokens. cbv zeta.
  rewrite !(member_group _ _ _ _ Ht), !(member_group _ _ _ _ Hc),
    !(member_group _ _ _ _ Hs), !(member_group _ _ _ _ Hr),
    !(member_group _ _ _ _ Hsh), Ha, Hd.
  eexists. split; reflexivity.
Qed.

(** X14.  [App] renders exactly when the document has the five groups
    [color], [radius], [spacing], [typography] and [shadow]; which token
    names these groups hold plays no part. *)
Theorem App_renders_iff (tokens : DesignTokens) :
  (∃ tree, App tokens = Ok tree) ↔ groupsPresent tokens.
Proof.
  split.
  - intros [tree Htree]. revert Htree. unfold App.
    change (Tokens.useDesignTokens tokens) with tokens. cbv zeta.
    bind_ok (Tokens.member tokens "typography" "font_family") x1 Ht.
    bind_ok (Tokens.member tokens "color" "background") x2 Hc.
    bind_ok (Tokens.member tokens "spacing" "lg") x3 Hs.
    bind_ok (Tokens.member tokens "color" "surface") x4 H4.
    bind_ok (Tokens.member tokens "radius" "lg") x5 Hr.
    bind_ok (Tokens.member tokens "shadow" "soft") x6 Hsh.
    intros _ g Hg. simpl in Hg.
    destruct Hg as [<-|[<-|[<-|[<-|[<-|[]]]]]];
      eauto using member_Ok_group.
  - intros Hgroups.
    destruct (groupsPresent_inv _ Hgroups)
      as (colorG & radiusG & spacingG & typographyG & shadowG
          & Hc & Hr & Hs & Ht & Hsh).
    destruct (BaseButton_total tokens (withIntent (Some "primary"))
                _ _ _ _ _ Hc Hr Hs Ht Hsh)
      as (? & ? & ? & _ & _ & _ & Ha); [left; simpl; tauto|].
    destruct (BaseButton_total tokens (withIntent (Some "secondary"))
                _ _ _ _ _ Hc Hr Hs Ht Hsh)
      as (? & ? & ? & _ & _ & _ & Hd); [left; simpl; tauto|].
    destruct (App_groups tokens _ _ _ _ _ _ _ Hc Hr Hs Ht Hsh Ha Hd)
      as (tree & Htree & _).
    by exists tree.
Qed.

Lemma App_renders_iff_witness :
  ∃ tree,
    App [ ("color", []); ("radius", []); ("spacing", []);
          ("typography", []); ("shadow", []) ] = Ok tree.
Proof.
  apply (proj2 (App_renders_iff
                  [ ("color", []); ("radius", []); ("spacing", []);
                    ("typography", []); ("shadow", []) ])).
  intros g Hg. simpl in Hg.
  destruct Hg as [<-|[<-|[<-|[<-|[<-|[]]]]]]; by eexists.
Defined.

(** X15.  When [App] renders, its tree holds exactly two buttons, Approve
    then Decline, both of type ["button"]; Approve carries the primary
    palette ([color.primary] on [color.primary_text]) and Decline the
    secondary one ([color.surface] on [color.secondary_text]), and each has
    just the eleven properties of the component's style. *)
Theorem App_buttons (tokens : DesignTokens) colorG :
  groupsPresent tokens →
  getProp tokens "color" = Some colorG →
  ∃ tree approve decline,
    App tokens = Ok tree
    ∧ buttons tree = [approve; decline]
    ∧ el_type approve = "button" ∧ el_type decline = "button"
    ∧ el_style approve !! "background"
      = Some (ofToken (getProp colorG "primary"))
    ∧ el_style approve !! "color"
      = Some (ofToken (getProp colorG "primary_text"))
    ∧ el_style decline !! "background"
      = Some (ofToken (getProp colorG "surface"))
    ∧ el_style decline !! "color"
      = Some (ofToken (getProp colorG "secondary_text"))
    ∧ dom (el_style approve) = list_to_set baseStyleKeys
    ∧ dom (el_style decline) = list_to_set baseStyleKeys.
Proof.
  intros Hgroups Hcolor.
  destruct (groupsPresent_inv _ Hgroups)
    as (colorG' & radiusG & spacingG & typographyG & shadowG
        & Hc & Hr & Hs & Ht & Hsh).
  assert (colorG' = colorG) as -> by congruence.
  destruct (BaseButton_total tokens (withIntent (Some "primary"))
              _ _ _ _ _ Hc Hr Hs Ht Hsh)
    as (pa & bga & fga & Hpa & Hbga & Hfga & Ha); [left; simpl; tauto|].
  destruct (BaseButton_total tokens (withIntent (Some "secondary"))
              _ _ _ _ _ Hc Hr Hs Ht Hsh)
    as (pd & bgd & fgd & Hpd & Hbgd & Hfgd & Hd); [left; simpl; tauto|].
  simpl in Hpa, Hpd. unfold paletteFor in Hpa, Hpd.
  rewrite (intentToColor_ok _ _ Hc) in Hpa, Hpd.
  injection Hpa as <-. injection Hpd as <-.
  injection Hbga as <-. injection Hfga as <-.
  injection Hbgd as <-. injection Hfgd as <-.
  destruct (App_groups tokens _ _ _ _ _ _ _ Hc Hr Hs Ht Hsh Ha Hd)
    as (tree & Htree & Hbuttons).
  eexists tree, _, _. split; [exact Htree|]. split; [exact Hbuttons|].
  simpl. unfold spread.
  repeat split; try (rewrite dom_objectLiteral; reflexivity);
    unfold objectLiteral; simpl; unfold assign; simpl;
    repeat (rewrite lookup_insert_ne by done); apply lookup_insert_eq.
Qed.

Lemma App_buttons_witness :
  ∃ tree approve decline,
    App sampleTokens = Ok tree
    ∧ buttons tree = [approve; decline]
    ∧ el_type approve = "button" ∧ el_type decline = "button"
    ∧ el_style approve !! "background" = Some (VStr "#2563EB")
    ∧ el_style approve !! "color" = Some (VStr "#FFFFFF")
    ∧ el_style decline !! "background" = Some (VStr "#F8FAFC")
    ∧ el_style decline !! "color" = Some (VStr "#0F172A")
    ∧ dom (el_style approve) = list_to_set baseStyleKeys
    ∧ dom (el_style decline) = list_to_set baseStyleKeys.
Proof.
  apply (App_buttons sampleTokens sampleColor).
  - intros g Hg. simpl in Hg.
    destruct Hg as [<-|[<-|[<-|[<-|[<-|[]]]]]]; by eexists.
  - reflexivity.
Defined.

End AppProperties.

(** ** Calls of [cssVariables] on the heap *)

Module RuntimeFacts.
Import Runtime.

(** The exported entries of a document, in the order they are first
    assigned. *)
Lemma setEntry_to_map (entries : JsObject string) k v :
  list_to_map (setEntry entries k v)
  =@{gmap string string} <[k := v]> (list_to_map entries).
Proof.
  induction entries as [|[k' v'] entries IH]; simpl; [done|].
  case_decide as Hk; simpl.
  - subst k'. by rewrite insert_insert_eq.
  - rewrite IH. by apply insert_insert_ne.
Qed.

Lemma foldl_setEntry_to_map (l : list (string * string))
    (entries : JsObject string) :
  list_to_map (foldl (fun o kv => setEntry o kv.1 kv.2) entries l)
  =@{gmap string string} foldl assign (list_to_map entries) l.
Proof.
  revert entries. induction l as [|[k v] l IH]; intros entries; simpl; [done|].
  by rewrite IH, setEntry_to_map.
Qed.

(** The inner loop writes the result object and nothing else. *)
Lemma inner_loop (values : JsObject string) (g : string) (vars : Loc)
    (entries : JsObject string) (h : Heap) :
  h !! vars = Some (ValuesObject entries) →
  forOf values (fun '(tokenName, tokenValue) =>
    assignProp vars (Tokens.varName g tokenName) tokenValue) h
  = Ok ((), <[vars := ValuesObject
                (foldl (fun o kv => setEntry o kv.1 kv.2) entries
                   (map (fun '(n, v) => (Tokens.varName g n, v)) values))]> h).
Proof.
  revert entries h. induction values as [|[n v] values IH];
    intros entries h Hvars; simpl.
  - unfold mret, Run_ret. by rewrite insert_id.
  - unfold mbind, Run_bind, assignProp at 1. rewrite Hvars.
    rewrite (IH (setEntry entries (Tokens.varName g n) v));
      [|apply lookup_insert_eq].
    by rewrite insert_insert_eq.
Qed.

(** The outer loop, on a heap that is the caller's heap [h0] plus the result
    object: the groups are read as they are in [h0], and only the result
    object is written. *)
Lemma outer_loop (groups : JsObject Loc) (doc : DesignTokens) (vars : Loc)
    (entries : JsObject string) (h0 : Heap) :
  h0 !! vars = None →
  readGroups h0 groups = Some doc →
  forOf groups (fun '(groupName, groupValues) =>
    values ← valueEntries groupValues;
    forOf values (fun '(tokenName, tokenValue) =>
      assignProp vars (Tokens.varName groupName tokenName) tokenValue))
    (<[vars := ValuesObject entries]> h0)
  = Ok ((), <[vars := ValuesObject
                (foldl (fun o kv => setEntry o kv.1 kv.2) entries
                   (Tokens.flatten doc))]> h0).
Proof.
  intros Hfresh. revert doc entries.
  induction groups as [|[g l] groups IH]; intros doc entries Hdoc; simpl in *.
  - by injection Hdoc as <-.
  - destruct (h0 !! l) as [[|values]|] eqn:Hl; try done.
    destruct (readGroups h0 groups) as [doc'|] eqn:Hdoc'; [|done].
    injection Hdoc as <-.
    assert (l ≠ vars) as Hne by congruence.
    unfold mbind at 1, Run_bind at 1. unfold mbind at 1, Run_bind at 1.
    unfold valueEntries at 1. rewrite lookup_insert_ne, Hl by done.
    rewrite (inner_loop values g vars entries); [|apply lookup_insert_eq].
    rewrite insert_insert_eq, (IH doc') by done.
    change (Tokens.flatten ((g, values) :: doc'))
      with (map (fun '(n, v) => (Tokens.varName g n, v)) values
            ++ Tokens.flatten doc').
    by rewrite foldl_app.
Qed.

(** What a call does: it adds one object to the heap, at a location that was
    not in use, holding the entries of the document the heap holds. *)
Lemma cssVariables_call (h : Heap) (tokens : Loc) (doc : DesignTokens) :
  readDocument h tokens = Some doc →
  cssVariables tokens h
  = Ok (fresh (dom h),
        <[fresh (dom h) := ValuesObject
            (foldl (fun o kv => setEntry o kv.1 kv.2) []
               (Tokens.flatten doc))]> h).
Proof.
  unfold readDocument. intros Hdoc.
  destruct (h !! tokens) as [[groups|]|] eqn:Htokens; try done.
  assert (h !! fresh (dom h) = None) as Hfresh
    by apply not_elem_of_dom, is_fresh.
  assert (tokens ≠ fresh (dom h)) as Hne by congruence.
  unfold cssVariables.
  unfold mbind at 1, Run_bind at 1. unfold newObject at 1. cbv zeta.
  unfold mbind at 1, Run_bind at 1. unfold groupEntries at 1.
  rewrite lookup_insert_ne, Htokens by done.
  unfold mbind at 1, Run_bind at 1.
  by rewrite (outer_loop groups doc _ [] h Hfresh Hdoc).
Qed.

(** Adding an object at an unused location changes no document. *)
Lemma readGroups_insert (h : Heap) (groups : JsObject Loc) doc l c :
  h !! l = None →
  readGroups h groups = Some doc →
  readGroups (<[l := c]> h) groups = Some doc.
Proof.
  intros Hl. revert doc.
  induction groups as [|[g l'] groups IH]; intros doc; simpl; [done|].
  destruct (h !! l') as [[|values]|] eqn:Hl'; try done.
  destruct (readGroups h groups) as [doc'|]; [|done].
  intros [= <-]. rewrite lookup_insert_ne, Hl' by congruence.
  by rewrite (IH doc').
Qed.

Lemma readDocument_insert (h : Heap) (tokens : Loc) doc l c :
  h !! l = None →
  readDocument h tokens = Some doc →
  readDocument (<[l := c]> h) tokens = Some doc.
Proof.
  unfold readDocument. intros Hl Hdoc.
  destruct (h !! tokens) as [[groups|]|] eqn:Htokens; try done.
  rewrite lookup_insert_ne, Htokens by congruence.
  by apply readGroups_insert.
Qed.

End RuntimeFacts.

(** ** Repeated resolution *)

Module RuntimeClaims.
Import Runtime RuntimeFacts.

(** The object a call returns holds the export of the document. *)
Lemma exported_entries (doc : DesignTokens) :
  list_to_map (foldl (fun o kv => setEntry o kv.1 kv.2) []
                 (Tokens.flatten doc))
  = Tokens.cssVariables doc.
Proof.
  by rewrite foldl_setEntry_to_map, TokensFacts.cssVariables_flatten.
Qed.

(** C6.  Resolution is deterministic.  On a heap that holds a token document,
    two successive calls of the export both succeed and return two distinct
    objects with identical contents, the same keys with the same values (in
    the same order), namely the export of the document; the calls leave the
    document, and every object that existed before, unchanged. *)
Theorem cssVariables_deterministic (h : Heap) (tokens : Loc)
    (doc : DesignTokens) :
  readDocument h tokens = Some doc →
  ∃ vars1 h1 vars2 h2,
    cssVariables tokens h = Ok (vars1, h1)
    ∧ cssVariables tokens h1 = Ok (vars2, h2)
    ∧ vars1 ≠ vars2
    ∧ h2 !! vars1 = h2 !! vars2
    ∧ readVariables h2 vars1 = Some (Tokens.cssVariables doc)
    ∧ readVariables h2 vars2 = Some (Tokens.cssVariables doc)
    ∧ readDocument h2 tokens = Some doc
    ∧ ∀ l, is_Some (h !! l) → h2 !! l = h !! l.
Proof.
  intros Hdoc.
  set (entries := foldl (fun o kv => setEntry o kv.1 kv.2) []
                    (Tokens.flatten doc)).
  set (vars1 := fresh (dom h)).
  set (h1 := <[vars1 := ValuesObject entries]> h).
  set (vars2 := fresh (dom h1)).
  set (h2 := <[vars2 := ValuesObject entries]> h1).
  assert (h !! vars1 = None) as Hfresh1 by apply not_elem_of_dom, is_fresh.
  assert (h1 !! vars2 = None) as Hfresh2 by apply not_elem_of_dom, is_fresh.
  assert (readDocument h1 tokens = Some doc) as Hdoc1
    by (by apply readDocument_insert).
  assert (vars1 ≠ vars2) as Hne.
  { intros Heq. rewrite <- Heq in Hfresh2. unfold h1 in Hfresh2.
    by rewrite lookup_insert_eq in Hfresh2. }
  assert (h2 !! vars1 = Some (ValuesObject entries)) as Hv1.
  { unfold h2. rewrite lookup_insert_ne by done.
    unfold h1. apply lookup_insert_eq. }
  assert (h2 !! vars2 = Some (ValuesObject entries)) as Hv2
    by apply lookup_insert_eq.
  exists vars1, h1, vars2, h2.
  split; [by apply cssVariables_call|].
  split; [by apply cssVariables_call|].
  split; [done|]. split; [by rewrite Hv1, Hv2|].
  unfold readVariables. rewrite Hv1, Hv2.
  split; [by rewrite <- exported_entries|].
  split; [by rewrite <- exported_entries|].
  split; [by apply readDocument_insert|].
  intros l [c Hl].
  assert (vars1 ≠ l) as Hl1 by (intros <-; congruence).
  assert (h1 !! l = Some c) as Hl'
    by (unfold h1; by rewrite lookup_insert_ne).
  assert (vars2 ≠ l) as Hl2 by (intros <-; congruence).
  unfold h2. rewrite lookup_insert_ne by done. by rewrite Hl', Hl.
Qed.

Lemma cssVariables_deterministic_witness :
  ∃ vars1 h1 vars2 h2,
    cssVariables 1%positive sampleHeap = Ok (vars1, h1)
    ∧ cssVariables 1%positive h1 = Ok (vars2, h2)
    ∧ vars1 ≠ vars2
    ∧ h2 !! vars1 = h2 !! vars2
    ∧ readVariables h2 vars1
      = Some (Tokens.cssVariables [ ("color", [ ("primary", "#2563EB") ]) ])
    ∧ readVariables h2 vars2
      = Some (Tokens.cssVariables [ ("color", [ ("primary", "#2563EB") ]) ])
    ∧ readDocument h2 1%positive
      = Some [ ("color", [ ("primary", "#2563EB") ]) ]
    ∧ ∀ l, is_Some (sampleHeap !! l) → h2 !! l = sampleHeap !! l.
Proof.
  apply (cssVariables_deterministic sampleHeap 1%positive
           [ ("color", [ ("primary", "#2563EB") ]) ]).
  vm_compute. reflexivity.
Defined.

(** One call on the sample heap: the result is a new object that holds the
    one variable of the document. *)
Example cssVariables_sample_call :
  ∃ vars h1,
    cssVariables 1%positive sampleHeap = Ok (vars, h1)
    ∧ h1 !! vars = Some (ValuesObject [ ("--dc-color-primary", "#2563EB") ])
    ∧ sampleHeap !! vars = None.
Proof.
  do 2 eexists. split; [vm_compute; reflexivity|].
  split; vm_compute; reflexivity.
Qed.

(** Assignment keeps the place of an existing property and appends a new
    one. *)
Example setEntry_order :
  setEntry [ ("a", "1"); ("b", "2") ] "a" "3" = [ ("a", "3"); ("b", "2") ]
  ∧ setEntry [ ("a", "1"); ("b", "2") ] "c" "3"
    = [ ("a", "1"); ("b", "2"); ("c", "3") ].
Proof. split; reflexivity. Qed.

End RuntimeClaims.
